(** * omero-mkngff: the [sql] / [symlink] commands of [MkngffControl]

  A shallow embedding of [src/omero_mkngff/__init__.py] together with the
  properties of the container walk, the row builder, the emitted script
  and the symlink topology.

  Layout of the development:
  - [PyStr]   : the Python string operations the plugin relies on;
  - [PurePath]: the fragment of [pathlib.PurePosixPath] that is used;
  - [OS]      : a POSIX file-system model (directories, regular files,
                symbolic links) with [exists], [isdir], [makedirs],
                [symlink] and the directory view read by [iterdir];
  - [Mkngff]  : the plugin itself, in a state-and-exception monad;
  - the theorems. *)

From Stdlib Require Import String Ascii List ZArith Lia Bool Arith DecimalString.
Import ListNotations.
Local Open Scope string_scope.
Local Open Scope list_scope.
Set Warnings "-register-all".


(* ===================================================================== *)
(** ** Python strings *)
(* ===================================================================== *)

Module PyStr.

(** The line feed used inside the triple-quoted templates. *)
Definition LF : string := String (ascii_of_nat 10) EmptyString.

(** [s.startswith(p)] *)
Definition startswith (s p : string) : bool := String.prefix p s.

(** [s[n:]] *)
Fixpoint drop (n : nat) (s : string) : string :=
  match n, s with
  | O, _ => s
  | S k, String _ r => drop k r
  | S _, EmptyString => EmptyString
  end.

(** [s.endswith("/")] *)
Fixpoint endswith_slash (s : string) : bool :=
  match s with
  | EmptyString => false
  | String c EmptyString => Ascii.eqb c "/"
  | String _ r => endswith_slash r
  end.

(** [s[:-1]] *)
Fixpoint drop_last (s : string) : string :=
  match s with
  | EmptyString => EmptyString
  | String _ EmptyString => EmptyString
  | String c r => String c (drop_last r)
  end.

(** The scanning loop of [str.replace]: [skip] counts the characters of a
    match that is being consumed. *)
Fixpoint replace_from (old new : string) (skip : nat) (s : string) : string :=
  match s with
  | EmptyString => EmptyString
  | String c r =>
      match skip with
      | S k => replace_from old new k r
      | O =>
          if String.prefix old s
          then new ++ replace_from old new (String.length old - 1) r
          else String c (replace_from old new 0 r)
      end
  end.

(** What [str.replace] does for an empty pattern: [new] goes between all
    characters and at both ends. *)
Fixpoint interleave (new s : string) : string :=
  match s with
  | EmptyString => new
  | String c r => new ++ String c (interleave new r)
  end.

(** [s.replace(old, new)]: every non-overlapping occurrence, leftmost
    first. *)
Definition replace (old new s : string) : string :=
  if String.eqb old "" then interleave new s else replace_from old new 0 s.

(** [s.rsplit("/", 1)]: [None] when there is no separator (the result then
    has a single element), otherwise the text before and after the last
    separator. *)
Fixpoint rsplit_slash (s : string) : option (string * string) :=
  match s with
  | EmptyString => None
  | String c r =>
      match rsplit_slash r with
      | Some (a, b) => Some (String c a, b)
      | None => if Ascii.eqb c "/" then Some (EmptyString, r) else None
      end
  end.

(** [s.split("/")] *)
Fixpoint split_slash (s : string) : list string :=
  match s with
  | EmptyString => [EmptyString]
  | String c r =>
      if Ascii.eqb c "/" then EmptyString :: split_slash r
      else match split_slash r with
           | h :: t => String c h :: t
           | [] => [String c EmptyString]
           end
  end.

(** [sep.join(l)] *)
Definition join (sep : string) (l : list string) : string := String.concat sep l.

(** [str(n)] for an [int]. *)
Definition of_int (n : Z) : string := NilZero.string_of_int (Z.to_int n).

(** [old] occurs somewhere in [s]. *)
Fixpoint contains (old s : string) : bool :=
  String.prefix old s ||
  match s with
  | EmptyString => false
  | String _ r => contains old r
  end.

(** The string has a NUL character in it. *)
Definition has_nul (s : string) : bool :=
  contains (String (ascii_of_nat 0) EmptyString) s.

End PyStr.

(* ===================================================================== *)
(** ** pathlib *)
(* ===================================================================== *)

Module PurePath.
Import PyStr.

(** A parsed [PurePosixPath]: the root ([""], ["/"] or ["//"]) and the
    components that follow it. *)
Record Path : Type := mkPath { anchor : string; parts : list string }.

(** [posixpath.splitroot]: one or at least three leading slashes make the
    root ["/"], exactly two make it ["//"]. *)
Definition splitroot (s : string) : string * string :=
  if negb (startswith s "/") then ("", s)
  else if negb (startswith (drop 1 s) "/") || startswith (drop 2 s) "/"
       then ("/", drop 1 s)
       else ("//", drop 2 s).

Definition is_part (x : string) : bool :=
  negb (String.eqb x "") && negb (String.eqb x ".").

(** [Path(s)] *)
Definition of_string (s : string) : Path :=
  let '(root, rel) := splitroot s in
  mkPath root (filter is_part (split_slash rel)).

(** [str(p)] *)
Definition str (p : Path) : string :=
  match anchor p, parts p with
  | EmptyString, [] => "."
  | a, l => a ++ join "/" l
  end.

(** [p.parent] *)
Definition parent (p : Path) : Path := mkPath (anchor p) (removelast (parts p)).

(** [p.name] *)
Definition name (p : Path) : string := last (parts p) "".

(** The child that [iterdir] builds for a directory entry: the entry name
    becomes the last component as it is. *)
Definition make_child (p : Path) (n : string) : Path :=
  mkPath (anchor p) (parts p ++ [n]).

(** [p / s] *)
Definition joinpath (p : Path) (s : string) : Path :=
  let q := of_string s in
  if String.eqb (anchor q) "" then mkPath (anchor p) (parts p ++ parts q) else q.

Definition eqb (p q : Path) : bool :=
  String.eqb (anchor p) (anchor q) &&
  if list_eq_dec string_dec (parts p) (parts q) then true else false.

End PurePath.

(* ===================================================================== *)
(** ** The file system *)
(* ===================================================================== *)

Module OS.
Import PyStr.

(** What is stored on disk.  A directory keeps its entries in listing
    order, which is the order [os.listdir] reports. *)
Inductive inode : Type :=
| IFile
| IDir (entries : list (string * inode))
| ILink (target : string).

Inductive kind : Type := KFile | KDir | KLink (target : string).

Inductive errno : Type := EEXIST | ENOENT | ENOTDIR | ELOOP | ENAMETOOLONG.

Definition kind_of (t : inode) : kind :=
  match t with
  | IFile => KFile
  | IDir _ => KDir
  | ILink tgt => KLink tgt
  end.

Fixpoint assoc (n : string) (es : list (string * inode)) : option inode :=
  match es with
  | [] => None
  | (m, t) :: r => if String.eqb m n then Some t else assoc n r
  end.

(** The object at a canonical path (a path without [.], [..] or links). *)
Fixpoint lookup (t : inode) (q : list string) : option inode :=
  match q with
  | [] => Some t
  | c :: q' =>
      match t with
      | IDir es => match assoc c es with
                   | Some t' => lookup t' q'
                   | None => None
                   end
      | _ => None
      end
  end.

Definition lstat (t : inode) (q : list string) : option kind :=
  option_map kind_of (lookup t q).

(** Add the entry [(c, x)] at the end of the directory at [q]. *)
Fixpoint insert (t : inode) (q : list string) (c : string) (x : inode) : inode :=
  match q with
  | [] => match t with
          | IDir es => IDir (es ++ [(c, x)])
          | _ => t
          end
  | a :: q' =>
      match t with
      | IDir es =>
          IDir (map (fun e => if String.eqb (fst e) a
                              then (fst e, insert (snd e) q' c x) else e) es)
      | _ => t
      end
  end.

(** Linux follows at most 40 links during one path resolution. *)
Definition MAXSYMLINKS : nat := 40.

Definition is_abs (s : string) : bool := startswith s "/".

(** Path resolution: [cur] is the canonical path of the directory reached
    so far, [todo] the components that remain.  [follow] tells whether a
    link in final position is followed. *)
Fixpoint resolve (fuel : nat) (d : inode) (follow : bool)
  : list string -> list string -> errno + list string :=
  fix go (cur todo : list string) {struct todo} : errno + list string :=
    match todo with
    | [] => inr cur
    | c :: rest =>
        if String.eqb c "" || String.eqb c "." then go cur rest
        else if String.eqb c ".." then go (removelast cur) rest
        else
          match lstat d (cur ++ [c]) with
          | None => inl ENOENT
          | Some KDir => go (cur ++ [c]) rest
          | Some KFile =>
              match rest with
              | [] => inr (cur ++ [c])
              | _ => inl ENOTDIR
              end
          | Some (KLink tgt) =>
              match rest, follow with
              | [], false => inr (cur ++ [c])
              | _, _ =>
                  match fuel with
                  | O => inl ELOOP
                  | S k => resolve k d follow
                             (if is_abs tgt then [] else cur)
                             (split_slash tgt ++ rest)
                  end
              end
          end
    end.

(** Components of a path string for the operations that create an entry:
    empty components and [.] do not matter there. *)
Definition is_comp (c : string) : bool :=
  negb (String.eqb c "") && negb (String.eqb c ".").

Definition comps (s : string) : list string := filter is_comp (split_slash s).

Definition start (cwd : list string) (s : string) : list string :=
  if is_abs s then [] else cwd.

Definition exists_c (d : inode) (from todo : list string) : bool :=
  match resolve MAXSYMLINKS d true from todo with
  | inr _ => true
  | inl _ => false
  end.

Definition isdir_c (d : inode) (from todo : list string) : bool :=
  match resolve MAXSYMLINKS d true from todo with
  | inr q => match lstat d q with
             | Some KDir => true
             | _ => false
             end
  | inl _ => false
  end.

(** The longest name that a directory entry can have, in bytes. *)
Definition NAME_MAX : nat := 255.

(** Create the entry named by [todo] ([mkdir], [symlink]): the name has to
    fit, the parent has to resolve to a directory and the name has to be
    free. *)
Definition create_c (d : inode) (from todo : list string) (x : inode)
  : inode * option errno :=
  match rev todo with
  | [] => (d, Some EEXIST)
  | c :: rhead =>
      if String.eqb c ".." then (d, Some EEXIST)
      else if Nat.ltb NAME_MAX (String.length c) then (d, Some ENAMETOOLONG)
      else
        match resolve MAXSYMLINKS d true from (rev rhead) with
        | inl e => (d, Some e)
        | inr q =>
            match lstat d q with
            | Some KDir =>
                match lstat d (q ++ [c]) with
                | Some _ => (d, Some EEXIST)
                | None => (insert d q c x, None)
                end
            | _ => (d, Some ENOTDIR)
            end
        end
  end.

(** [os.makedirs(name, exist_ok=True)] on the components of [name], last
    component first: an existing directory is left alone; otherwise the
    missing ancestors are made first (an [EEXIST] from them is ignored),
    then the directory itself, and an error of this last [mkdir] is
    ignored when the directory is there. *)
Fixpoint makedirs_c (d : inode) (from rtodo : list string) : inode * option errno :=
  match rtodo with
  | [] => (d, None)
  | _ :: rhead =>
      if isdir_c d from (rev rtodo) then (d, None)
      else
        let '(d1, e1) :=
          match rhead with
          | [] => (d, None)
          | _ :: _ =>
              if exists_c d from (rev rhead) then (d, None)
              else match makedirs_c d from rhead with
                   | (d1, Some EEXIST) => (d1, None)
                   | r => r
                   end
          end in
        match e1 with
        | Some e => (d1, Some e)
        | None =>
            match create_c d1 from (rev rtodo) (IDir []) with
            | (d2, None) => (d2, None)
            | (d2, Some e) =>
                if isdir_c d2 from (rev rtodo) then (d2, None) else (d2, Some e)
            end
        end
  end.

(** The longest path string that a system call takes, its final NUL
    counted. *)
Definition PATH_MAX : nat := 4096.

(** What a system call says of a path string before anything is looked up:
    an empty string is [ENOENT], one that does not fit is [ENAMETOOLONG]. *)
Definition getname (s : string) : option errno :=
  if String.eqb s "" then Some ENOENT
  else if Nat.leb PATH_MAX (String.length s) then Some ENAMETOOLONG
  else None.

(** The operations on path strings, relative paths starting at [cwd].
    [os.path.exists] and [os.path.isdir] answer [False] when the system
    call fails, whatever the error. *)
Definition exists_ (d : inode) (cwd : list string) (s : string) : bool :=
  match getname s with
  | Some _ => false
  | None => exists_c d (start cwd s) (split_slash s)
  end.

Definition isdir (d : inode) (cwd : list string) (s : string) : bool :=
  match getname s with
  | Some _ => false
  | None => isdir_c d (start cwd s) (split_slash s)
  end.

Definition makedirs (d : inode) (cwd : list string) (s : string)
  : inode * option errno :=
  if String.eqb s "" then (d, Some ENOENT)
  else makedirs_c d (start cwd s) (rev (comps s)).

(** The system call behind [os.symlink(target, source)]: the link text is
    taken in first, then the path of the link; the link text is stored as
    given. *)
Definition symlink (d : inode) (cwd : list string) (target source : string)
  : inode * option errno :=
  match getname target with
  | Some e => (d, Some e)
  | None =>
      match getname source with
      | Some e => (d, Some e)
      | None => create_c d (start cwd source) (comps source) (ILink target)
      end
  end.

(** [resolve], together with the number of links that may still be followed
    when the path has been resolved. *)
Fixpoint resolve_left (fuel : nat) (d : inode) (follow : bool)
  : list string -> list string -> errno + (nat * list string) :=
  fix go (cur todo : list string) {struct todo} : errno + (nat * list string) :=
    match todo with
    | [] => inr (fuel, cur)
    | c :: rest =>
        if String.eqb c "" || String.eqb c "." then go cur rest
        else if String.eqb c ".." then go (removelast cur) rest
        else
          match lstat d (cur ++ [c]) with
          | None => inl ENOENT
          | Some KDir => go (cur ++ [c]) rest
          | Some KFile =>
              match rest with
              | [] => inr (fuel, cur ++ [c])
              | _ => inl ENOTDIR
              end
          | Some (KLink tgt) =>
              match rest, follow with
              | [], false => inr (fuel, cur ++ [c])
              | _, _ =>
                  match fuel with
                  | O => inl ELOOP
                  | S k => resolve_left k d follow
                             (if is_abs tgt then [] else cur)
                             (split_slash tgt ++ rest)
                  end
              end
          end
    end.

(** The directory tree as [iterdir], [is_dir] and [exists] report it:
    links are followed, so an entry is a regular file, a directory with
    its own entries, or a name behind which nothing can be reached. *)
Inductive node : Type :=
| File (name : string)
| Dir (name : string) (children : list node)
| Dangling (name : string).

(** The view of the entry [n], stored as [t] in the directory [cur].
    [budget] is the number of links that may still be followed on the way
    to the entry: the links on the path to its directory are counted
    against every entry of that directory.  [gas] bounds the recursion and
    is never less than [budget]. *)
Fixpoint view (gas : nat) (d : inode)
  : nat -> list string -> string -> inode -> node :=
  fix go (budget : nat) (cur : list string) (n : string) (t : inode)
      {struct t} : node :=
    match t with
    | IFile => File n
    | IDir es =>
        Dir n (map (fun e => let '(m, c) := e in go budget (cur ++ [n]) m c) es)
    | ILink tgt =>
        match gas, budget with
        | S g, S b =>
            match resolve_left b d true (if is_abs tgt then [] else cur)
                    (split_slash tgt) with
            | inr (rest_links, q) =>
                match lookup d q with
                | Some (IDir es) =>
                    Dir n (map (fun e => view g d rest_links q (fst e) (snd e)) es)
                | Some IFile => File n
                | _ => Dangling n
                end
            | inl _ => Dangling n
            end
        | _, _ => Dangling n
        end
    end.

(** The entries [Path.iterdir] yields for the directory named [s]. *)
Definition scandir (d : inode) (cwd : list string) (s : string) : errno + list node :=
  match getname s with
  | Some e => inl e
  | None =>
      match resolve_left MAXSYMLINKS d true (start cwd s) (split_slash s) with
      | inl e => inl e
      | inr (rest_links, q) =>
          match lookup d q with
          | Some (IDir es) =>
              inr (map (fun e => view MAXSYMLINKS d rest_links q (fst e) (snd e)) es)
          | Some _ => inl ENOTDIR
          | None => inl ENOENT
          end
      end
  end.

End OS.

(* ===================================================================== *)
(** ** The plugin *)
(* ===================================================================== *)

Module Mkngff.
Import PyStr PurePath OS.
Local Open Scope string_scope.

(** *** What the commands run against *)

(** The disk and the process's working directory, the two tables of the
    server that the commands read (the filesets with their template prefix
    and the repositories with their hash and whether they are managed),
    and what has been written to the two output streams. *)
Record world : Type := mkWorld {
  disk : inode;
  cwd : list string;
  filesets : list (Z * string);
  repositories : list (string * bool);
  out : list string;
  err : list string
}.

(** The exceptions that can leave a command.  The exception of
    [self.ctx.die] carries the return code and the message. *)
Inductive exn : Type :=
| Die (rc : Z) (msg : string)
| OSError (e : errno)
| TypeError
| ValueError.

(** Commands: state passing with exceptions; the state reached when an
    exception is raised is kept. *)
Definition M (A : Type) : Type := world -> (exn + A) * world.

Definition ret {A} (a : A) : M A := fun w => (inr a, w).

Definition bind {A B} (c : M A) (k : A -> M B) : M B :=
  fun w => match c w with
           | (inl e, w') => (inl e, w')
           | (inr a, w') => k a w'
           end.

Definition raise {A} (e : exn) : M A := fun w => (inl e, w).

Definition get : M world := fun w => (inr w, w).

Notation "x <- c ;; k" := (bind c (fun x => k))
  (at level 61, c at next level, right associativity).
Notation "c ;;; k" := (bind c (fun _ => k))
  (at level 61, right associativity).

(** [self.ctx.out] and [self.ctx.err] *)
Definition ctx_out (s : string) : M unit :=
  fun w => (inr tt, mkWorld (disk w) (cwd w) (filesets w) (repositories w)
                            (out w ++ [s])%list (err w)).

Definition ctx_err (s : string) : M unit :=
  fun w => (inr tt, mkWorld (disk w) (cwd w) (filesets w) (repositories w)
                            (out w) (err w ++ [s])%list).

(** [die] of the command line writes the message to the error stream and
    then raises. *)
Definition ctx_die {A} (rc : Z) (msg : string) : M A :=
  fun w => (inl (Die rc msg),
            mkWorld (disk w) (cwd w) (filesets w) (repositories w)
                    (out w) (err w ++ [msg])%list).

(** A file-system call that changes the disk. *)
Definition os_call (f : inode -> list string -> inode * option errno) : M unit :=
  fun w =>
    let '(d, e) := f (disk w) (cwd w) in
    let w' := mkWorld d (cwd w) (filesets w) (repositories w) (out w) (err w) in
    match e with
    | Some e => (inl (OSError e), w')
    | None => (inr tt, w')
    end.

(** [os.symlink(src, dst)]: a string with a NUL character in it is refused
    with [ValueError] before the system is asked. *)
Definition os_symlink (src dst : string) : M unit :=
  if has_nul src || has_nul dst then raise ValueError
  else os_call (fun d c => OS.symlink d c src dst).

(** [os.path.join(a, b)] *)
Definition os_path_join (a b : string) : string :=
  if startswith b "/" then b
  else if String.eqb a "" || endswith_slash a then a ++ b
  else a ++ "/" ++ b.

(** *** Constants *)

Definition SUFFIX : string := "mkngff".

(** [TEMPLATE.format(OLD_FILESET=.., UUID=.., REPO=.., PREFIX=.., ROWS=..)] *)
Definition TEMPLATE_format (OLD_FILESET UUID REPO PREFIX ROWS : string) : string :=
  LF ++ "begin;" ++ LF ++
  "    select mkngff_fileset(" ++ LF ++
  "      " ++ OLD_FILESET ++ "," ++ LF ++
  "      '" ++ UUID ++ "'," ++ LF ++
  "      '" ++ REPO ++ "'," ++ LF ++
  "      '" ++ PREFIX ++ "'," ++ LF ++
  "      array[" ++ LF ++
  ROWS ++ LF ++
  "      ]::text[][]" ++ LF ++
  "    );" ++ LF ++
  "commit;" ++ LF.

(** [ROW.format(PATH=.., NAME=.., MIME=..)] *)
Definition ROW_format (PATH NAME MIME : string) : string :=
  "          ['" ++ PATH ++ "', '" ++ NAME ++ "', '" ++ MIME ++ "']".

(** The f-string of the statement that retargets the pixels rows. *)
Definition UPDATE_format (fname fpath : string) (fileset_id : Z) : string :=
  "UPDATE pixels SET name = '" ++ fname ++ "', path = '" ++ fpath ++
  "' where image in (select id from Image where fileset = " ++
  of_int fileset_id ++ ");".

(** *** Arguments *)

(** The [Namespace] of the [sql] and [symlink] sub-commands. *)
Record Namespace : Type := mkArgs {
  secret : string;
  zarr_name : option string;
  symlink_repo : option string;
  fileset_id : Z;
  symlink_target : string
}.

(** *** [walk] *)

Definition entry : Type := Path * string * string.

Definition node_name (t : node) : string :=
  match t with
  | File n => n
  | Dir n _ => n
  | Dangling n => n
  end.

(** [(p / n).exists()] for a directory [p] whose entries are [cs]. *)
Definition child_exists (cs : list node) (n : string) : bool :=
  existsb (fun c => match c with
                    | Dangling _ => false
                    | _ => String.eqb (node_name c) n
                    end) cs.

(** One round of the loop of [walk], for the entry [t] of [path]. *)
Fixpoint walk_entry (path : Path) (t : node) : list entry :=
  let p := make_child path (node_name t) in
  match t with
  | Dir _ cs =>
      let is_array := child_exists cs ".zarray" in
      if is_array || child_exists cs ".zgroup" then
        (parent p, name p, "Directory")
          :: (if negb is_array then flat_map (walk_entry p) cs else [])
      else []
  | _ => [(parent p, name p, "application/octet-stream")]
  end.

(** [walk(path)], where [listing] is what [path.iterdir()] yields. *)
Definition walk (path : Path) (listing : list node) : list entry :=
  flat_map (walk_entry path) listing.

(** *** [get_prefix] and [get_uuid] *)

(** The result of the fileset query: the template prefixes of the rows
    with the given id. *)
Definition findAllByQuery (w : world) (id : Z) : list string :=
  map snd (filter (fun r => Z.eqb (fst r) id) (filesets w)).

Definition get_prefix (args : Namespace) : M string :=
  w <- get ;;
  let rv := findAllByQuery w (fileset_id args) in
  match rv with
  | [prefix] =>
      ret (if endswith_slash prefix then drop_last prefix else prefix)
  | _ =>
      ctx_die 400 ("Found wrong number of filesets: "
                     ++ of_int (Z.of_nat (List.length rv)))
  end.

Definition get_uuid (args : Namespace) : M string :=
  w <- get ;;
  let repos := repositories w in
  match find (fun pair => snd pair) repos with
  | Some (desc, _) => ret desc
  | None =>
      ctx_die 402 ("Failed to find managed repository (count="
                     ++ of_int (Z.of_nat (List.length repos)) ++ ")")
  end.

(** *** [create_symlink] *)

Definition create_symlink (symlink_repo prefix : string) (symlink_path : Path)
    (symlink_target : string) : M unit :=
  let prefix_dir := os_path_join symlink_repo prefix in
  ctx_err ("Checking for prefix_dir " ++ prefix_dir) ;;;
  w <- get ;;
  (if negb (exists_ (disk w) (cwd w) prefix_dir)
   then ctx_die 402 ("Fileset dir does not exist: " ++ prefix_dir)
   else ret tt) ;;;
  let symlink_container := str (parent symlink_path) in
  let symlink_container :=
    if startswith symlink_container "/" then drop 1 symlink_container
    else symlink_container in
  let symlink_dir := prefix_dir ++ "_" ++ SUFFIX in
  ctx_err ("Creating dir at " ++ symlink_dir) ;;;
  os_call (fun d c => makedirs d c symlink_dir) ;;;
  let symlink_source := os_path_join symlink_dir (name symlink_path) in
  w <- get ;;
  let target_is_directory := isdir (disk w) (cwd w) symlink_target in
  ctx_err ("Creating symlink " ++ symlink_source ++ " -> " ++ symlink_target) ;;;
  os_symlink symlink_target symlink_source.

(** *** [sql] *)

(** Lines 198-200: the walked path with the container's parent removed. *)
Definition shorten (symlink_path row_path : Path) : string :=
  let row_path := replace (str (parent symlink_path)) "" (str row_path) in
  if startswith row_path "/" then drop 1 row_path else row_path.

(** The body of the loop over the walk: the state is [setid_target] and
    [rows]. *)
Definition sql_row (prefix_path prefix_name : string) (symlink_path : Path)
    (acc : option (string * string) * list string) (e : entry)
  : option (string * string) * list string :=
  let '(setid_target, rows) := acc in
  let '(row_path, row_name, row_mime) := e in
  let row_path := shorten symlink_path row_path in
  let row_full_path :=
    prefix_path ++ "/" ++ prefix_name ++ "_" ++ SUFFIX ++ "/" ++ row_path in
  let setid_target :=
    if (match setid_target with None => true | Some _ => false end
        && String.eqb row_name ".zattrs")
       || String.eqb row_name "METADATA.ome.xml"
    then Some (row_full_path, row_name)
    else setid_target in
  (setid_target, (rows ++ [ROW_format (row_full_path ++ "/") row_name row_mime])%list).

Definition sql_rows (prefix_path prefix_name : string) (symlink_path : Path)
    (entries : list entry) : option (string * string) * list string :=
  fold_left (sql_row prefix_path prefix_name symlink_path) entries (None, []).

(** [Path.iterdir] of the walk's root; a failure of the listing is the
    [OSError] that [iterdir] raises. *)
Definition iterdir (path : Path) : M (list node) :=
  w <- get ;;
  match scandir (disk w) (cwd w) (str path) with
  | inl e => raise (OSError e)
  | inr l => ret l
  end.

Definition truthy (o : option string) : option string :=
  match o with
  | Some s => if String.eqb s "" then None else Some s
  | None => None
  end.

Definition sql (args : Namespace) : M unit :=
  prefix <- get_prefix args ;;
  match rsplit_slash prefix with
  | None => raise ValueError
  | Some (prefix_path, prefix_name) =>
      ctx_err ("Found prefix " ++ prefix_path ++ " // " ++ prefix_name
                 ++ " for fileset " ++ of_int (fileset_id args)) ;;;
      let symlink_path := of_string (symlink_target args) in
      w <- get ;;
      if negb (exists_ (disk w) (cwd w) (str symlink_path)) then
        ctx_die 401 ("Symlink target does not exist: " ++ symlink_target args)
      else
        (match truthy (symlink_repo args) with
         | Some repo =>
             create_symlink repo prefix symlink_path (symlink_target args)
         | None => ret tt
         end) ;;;
        listing <- iterdir symlink_path ;;
        let '(setid_target, rows) :=
          sql_rows prefix_path prefix_name symlink_path (walk symlink_path listing) in
        match setid_target with
        | None => raise TypeError
        | Some (fpath, fname) =>
            ctx_out (UPDATE_format fname fpath (fileset_id args)) ;;;
            repo <- get_uuid args ;;
            ctx_out
              (TEMPLATE_format
                 (of_int (fileset_id args))
                 (secret args)
                 repo
                 (prefix_path ++ "/" ++ prefix_name ++ "_" ++ SUFFIX ++ "/")
                 (join ("," ++ LF) rows))
        end
  end.

(** *** [symlink] *)

Definition symlink (args : Namespace) : M unit :=
  prefix <- get_prefix args ;;
  let symlink_path := of_string (symlink_target args) in
  match symlink_repo args with
  | Some repo => create_symlink repo prefix symlink_path (symlink_target args)
  | None => raise TypeError
  end.

End Mkngff.

(* ===================================================================== *)
(** ** Vocabulary of the statements *)
(* ===================================================================== *)

Import PyStr PurePath OS Mkngff.
Local Open Scope string_scope.

(** *** Rows *)

(** The path that the loop of [sql] computes for a walked entry (line 201),
    and the row it appends (lines 205-211). *)
Definition row_full_path (prefix_path prefix_name : string) (symlink_path : Path)
    (e : entry) : string :=
  prefix_path ++ "/" ++ prefix_name ++ "_" ++ SUFFIX ++ "/"
    ++ shorten symlink_path (fst (fst e)).

Definition row_of (prefix_path prefix_name : string) (symlink_path : Path)
    (e : entry) : string :=
  ROW_format (row_full_path prefix_path prefix_name symlink_path e ++ "/")
             (snd (fst e)) (snd e).

Definition is_zattrs (e : entry) : bool := String.eqb (snd (fst e)) ".zattrs".
Definition is_ome_xml (e : entry) : bool := String.eqb (snd (fst e)) "METADATA.ome.xml".
Definition is_descriptor (e : entry) : bool := is_zattrs e || is_ome_xml e.

(** The target as a pair, the way the loop stores it. *)
Definition target_of (prefix_path prefix_name : string) (symlink_path : Path)
    (e : entry) : string * string :=
  (row_full_path prefix_path prefix_name symlink_path e, snd (fst e)).

(** The root under which all rows are registered. *)
Definition new_prefix_root (prefix_path prefix_name : string) : string :=
  prefix_path ++ "/" ++ prefix_name ++ "_mkngff/".

(** *** Containers used in the examples *)

(** [root/{a.txt, g/.zgroup, g/arr/.zarray, g/arr/0, g/arr/1}], each
    directory in the order it is listed. *)
Definition scenario_tree : list node :=
  [File "a.txt";
   Dir "g" [File ".zgroup";
            Dir "arr" [File ".zarray"; File "0"; File "1"]]].

Definition scenario_root : Path := of_string "/data/root".

(** The rows that the scenario of the specification expects. *)
Definition scenario_expected_rows : list string :=
  [ROW_format "/base/xyz_mkngff/a.txt/" "a.txt" "application/octet-stream";
   ROW_format "/base/xyz_mkngff/g/" "g" "Directory";
   ROW_format "/base/xyz_mkngff/g/arr/" "arr" "Directory"].

(** An image written with the legacy metadata file next to the NGFF
    metadata: [img.zarr/{.zattrs, .zgroup, OME/{.zgroup, METADATA.ome.xml}}]. *)
Definition ome_tree : list node :=
  [File ".zattrs"; File ".zgroup";
   Dir "OME" [File ".zgroup"; File "METADATA.ome.xml"]].

Definition ome_root : Path := of_string "/data/img.zarr".


(** *** Places in a container *)

(** Places are named by the entry names that lead to them from the walked
    directory. *)
Definition find_child (cs : list node) (n : string) : option node :=
  find (fun c => String.eqb (node_name c) n) cs.

(** The entries of the directory at a place. *)
Fixpoint subdir (cs : list node) (rel : list string) : option (list node) :=
  match rel with
  | [] => Some cs
  | n :: rel' =>
      match find_child cs n with
      | Some (Dir _ cs') => subdir cs' rel'
      | _ => None
      end
  end.

Definition is_array (cs : list node) : bool := child_exists cs ".zarray".
Definition is_group (cs : list node) : bool := child_exists cs ".zgroup".

(** The directories that [walk] goes into: groups that are not arrays. *)
Definition descends (cs : list node) : bool := negb (is_array cs) && is_group cs.

(** A place is reached when [walk] goes into every directory above it, the
    walked directory itself apart (that one is always listed). *)
Fixpoint reached (cs : list node) (rel : list string) : bool :=
  match rel with
  | [] => true
  | n :: rel' =>
      match rel' with
      | [] => true
      | _ :: _ =>
          match find_child cs n with
          | Some (Dir _ cs') => descends cs' && reached cs' rel'
          | _ => false
          end
      end
  end.

Definition below (path : Path) (rel : list string) : Path :=
  mkPath (anchor path) (parts path ++ rel).

(** The entry is the one of the place [rel] under the walked [path]. *)
Definition entry_at (path : Path) (rel : list string) (e : entry) : bool :=
  match rel with
  | [] => false
  | _ :: _ =>
      PurePath.eqb (fst (fst e)) (below path (removelast rel))
      && String.eqb (snd (fst e)) (last rel "")
  end.

Definition count_at (path : Path) (rel : list string) (l : list entry) : nat :=
  List.length (filter (entry_at path rel) l).

(** Directory listings name every entry once. *)
Fixpoint nodupb (l : list string) : bool :=
  match l with
  | [] => true
  | x :: r => negb (existsb (String.eqb x) r) && nodupb r
  end.

Fixpoint unique_names (t : node) : bool :=
  match t with
  | Dir _ cs => nodupb (map node_name cs) && forallb unique_names cs
  | _ => true
  end.

Definition unique_listing (cs : list node) : bool :=
  nodupb (map node_name cs) && forallb unique_names cs.


(** *** Disks *)

(** Everything that can be seen on [d] is on [d'] too, unchanged in kind. *)
Definition sub_disk (d d' : inode) : Prop :=
  forall p k, lstat d p = Some k -> lstat d' p = Some k.

(** Names that [mkdir] and [symlink] can give to a new entry. *)
Definition plain (c : string) : bool := is_comp c && negb (String.eqb c "..").


(** *** Worlds *)

(** The world after a line has been written to a stream. *)
Definition log_out (w : world) (s : string) : world :=
  mkWorld (disk w) (cwd w) (filesets w) (repositories w) (out w ++ [s])%list (err w).

Definition log_err (w : world) (s : string) : world :=
  mkWorld (disk w) (cwd w) (filesets w) (repositories w) (out w) (err w ++ [s])%list.

(** The prefix that [get_prefix] returns for a row of the fileset table. *)
Definition normalized (template_prefix : string) : string :=
  if endswith_slash template_prefix then drop_last template_prefix
  else template_prefix.

(** A server with two filesets and a managed repository, and a disk with
    the scenario container, an image with metadata and the directories of
    the two filesets under the managed repository [/repo]. *)
Definition example_disk : inode :=
  IDir [("data",
         IDir [("root",
                IDir [("a.txt", IFile);
                      ("g", IDir [(".zgroup", IFile);
                                  ("arr", IDir [(".zarray", IFile);
                                                ("0", IFile); ("1", IFile)])])]);
               ("img.zarr",
                IDir [(".zattrs", IFile); (".zgroup", IFile);
                      ("OME", IDir [(".zgroup", IFile);
                                    ("METADATA.ome.xml", IFile)])])]);
        ("repo",
         IDir [("user_2", IDir [("xyz", IDir []); ("abc", IDir [])])])].

Definition example_world : world :=
  mkWorld example_disk []
          [(1%Z, "user_2/xyz/"); (2%Z, "user_2/abc/")]
          [("c0ffee", false); ("cafe-d00d", true)]
          [] [].

(** The same, on a server without managed repository. *)
Definition unmanaged_world : world :=
  mkWorld example_disk []
          [(1%Z, "user_2/xyz/"); (2%Z, "user_2/abc/")]
          [("c0ffee", false)]
          [] [].


(** *** Invocations used in the examples *)

(** [omero mkngff sql 1 /data/img.zarr] *)
Definition sql_img_args : Namespace :=
  mkArgs "TBD" None None 1 "/data/img.zarr".

(** [omero mkngff sql --symlink_repo /repo 1 /data/root] *)
Definition sql_root_symlink_args : Namespace :=
  mkArgs "TBD" None (Some "/repo") 1 "/data/root".

(** [omero mkngff symlink /repo 1 /data/missing.zarr] *)
Definition symlink_missing_args : Namespace :=
  mkArgs "TBD" None (Some "/repo") 1 "/data/missing.zarr".

(** *** What the walk lists *)

(** The entry at a place. *)
Fixpoint node_at (cs : list node) (rel : list string) : option node :=
  match rel with
  | [] => None
  | n :: rel' =>
      match find_child cs n with
      | None => None
      | Some t =>
          match rel' with
          | [] => Some t
          | _ :: _ =>
              match t with
              | Dir _ cs' => node_at cs' rel'
              | _ => None
              end
          end
      end
  end.

(** The entries that a round of [walk] yields something for: everything
    but directories without marker. *)
Definition yields (t : node) : bool :=
  match t with
  | Dir _ cs => is_array cs || is_group cs
  | _ => true
  end.

Definition mime_of (t : node) : string :=
  match t with
  | Dir _ _ => "Directory"
  | _ => "application/octet-stream"
  end.

(** A place is listed when there is an entry that yields something and the
    walk gets to it. *)
Definition listed (cs : list node) (rel : list string) : bool :=
  match node_at cs rel with
  | Some t => yields t && reached cs rel
  | None => false
  end.

(** [t] is an entry at the place [rel], below directories that the walk
    goes into. *)
Fixpoint at_place (cs : list node) (rel : list string) (t : node) : Prop :=
  match rel with
  | [] => False
  | n :: rel' =>
      match rel' with
      | [] => In t cs /\ node_name t = n
      | _ :: _ =>
          exists cs', In (Dir n cs') cs /\ descends cs' = true /\ at_place cs' rel' t
      end
  end.

(** *** Paths and prefixes *)

(** The string has no separator. *)
Definition no_slash (s : string) : bool := negb (contains "/" s).

(** The exception with which [os.symlink] turns a link text down, whatever
    the path of the link: [ValueError] for a NUL character,
    [FileNotFoundError] for the empty text, [OSError] for a text that is
    too long. *)
Definition refused (link_text : string) : option exn :=
  if has_nul link_text then Some ValueError
  else option_map OSError (getname link_text).

(** The mirror directory of a fileset. *)
Definition mirror_dir (symlink_repo prefix : string) : string :=
  os_path_join symlink_repo prefix ++ "_" ++ SUFFIX.

(* ===================================================================== *)
(** ** Facts about the string operations *)
(* ===================================================================== *)

Section StringFacts.

Lemma append_nil_r (s : string) : s ++ "" = s.
Proof. induction s; simpl; congruence. Qed.

Lemma append_assoc (a b c : string) : (a ++ b) ++ c = a ++ b ++ c.
Proof. induction a; simpl; congruence. Qed.

Lemma length_append (a b : string) :
  String.length (a ++ b) = String.length a + String.length b.
Proof. induction a; simpl; congruence. Qed.

Lemma prefix_append (a b : string) : String.prefix a (a ++ b) = true.
Proof.
  induction a as [|c a IH]; simpl; [now destruct b|].
  destruct (ascii_dec c c); [exact IH | congruence].
Qed.

Lemma prefix_length (a s : string) :
  String.prefix a s = true -> String.length a <= String.length s.
Proof.
  revert s; induction a as [|c a IH]; intros s H; simpl; [lia|].
  destruct s as [|c' s]; simpl in H; [discriminate|].
  destruct (ascii_dec c c'); [|discriminate].
  apply IH in H. simpl. lia.
Qed.

Lemma prefix_split (a s : string) :
  String.prefix a s = true -> exists r, s = a ++ r.
Proof.
  revert s; induction a as [|c a IH]; intros s H.
  - exists s; reflexivity.
  - destruct s as [|c' s]; simpl in H; [discriminate|].
    destruct (ascii_dec c c') as [->|]; [|discriminate].
    destruct (IH _ H) as [r ->]. exists r; reflexivity.
Qed.

Lemma drop_append (a b : string) : drop (String.length a) (a ++ b) = b.
Proof. induction a; simpl; [now destruct b | assumption]. Qed.

Lemma endswith_slash_append (a : string) : endswith_slash (a ++ "/") = true.
Proof.
  induction a as [|c a IH]; [reflexivity|].
  simpl. destruct (a ++ "/") eqn:E; [destruct a; discriminate | exact IH].
Qed.

(** A match that is being skipped is the same as dropping its characters. *)
Lemma replace_from_skip (old new : string) (k : nat) (s : string) :
  replace_from old new k s = replace_from old new 0 (drop k s).
Proof.
  revert k; induction s as [|c s IH]; intros [|k]; simpl; try reflexivity.
  apply IH.
Qed.

(** A leading occurrence is removed and the scan goes on behind it. *)
Lemma replace_leading (old rest : string) :
  old <> "" -> replace old "" (old ++ rest) = replace old "" rest.
Proof.
  intros Hne. unfold replace.
  destruct (String.eqb_spec old ""); [contradiction|].
  destruct old as [|c old]; [contradiction|].
  change ((String c old ++ rest)) with (String c (old ++ rest)).
  unfold replace_from at 1; fold replace_from.
  change (String c (old ++ rest)) with (String c old ++ rest).
  rewrite prefix_append. simpl String.length. simpl append.
  rewrite Nat.sub_0_r, replace_from_skip, drop_append. reflexivity.
Qed.

Lemma replace_from_length (old : string) (k : nat) (s : string) :
  String.length (replace_from old "" k s) <= String.length s - k.
Proof.
  revert k; induction s as [|c s IH]; intros k; [simpl; lia|].
  destruct k as [|k].
  - unfold replace_from; fold replace_from.
    destruct (String.prefix old (String c s)).
    + simpl append. specialize (IH (String.length old - 1)). simpl. lia.
    + specialize (IH 0). simpl. lia.
  - simpl. apply IH.
Qed.

(** Every further occurrence costs at least the length of the pattern. *)
Lemma replace_from_contains (old s : string) :
  old <> "" -> contains old s = true ->
  String.length (replace_from old "" 0 s) + String.length old <= String.length s.
Proof.
  intros Hne. induction s as [|c s IH]; intros H.
  - destruct old; [contradiction | discriminate].
  - unfold contains in H; fold contains in H.
    unfold replace_from; fold replace_from.
    destruct (String.prefix old (String c s)) eqn:P.
    + apply prefix_length in P. simpl in P. simpl append.
      pose proof (replace_from_length old (String.length old - 1) s).
      destruct old; [contradiction|]. simpl in *. lia.
    + simpl in H. apply IH in H. simpl. lia.
Qed.

Lemma rsplit_slash_append (s a b : string) :
  rsplit_slash s = Some (a, b) -> s = a ++ "/" ++ b.
Proof.
  revert a b; induction s as [|c s IH]; intros a b H; [discriminate|].
  simpl in H. destruct (rsplit_slash s) as [[a' b']|].
  - injection H as <- <-. simpl. f_equal. now apply IH.
  - destruct (Ascii.eqb_spec c "/"); [|discriminate].
    injection H as <- <-. subst c. reflexivity.
Qed.

End StringFacts.

(* ===================================================================== *)
(** ** The row builder *)
(* ===================================================================== *)

Section RowBuilder.

Variables (prefix_path prefix_name : string) (symlink_path : Path).

Implicit Types (es : list entry) (e : entry).

Lemma sql_rows_snoc (es : list entry) (e : entry) :
  sql_rows prefix_path prefix_name symlink_path (es ++ [e]) = sql_row prefix_path prefix_name symlink_path (sql_rows prefix_path prefix_name symlink_path es) e.
Proof. unfold sql_rows. now rewrite fold_left_app. Qed.

Lemma sql_row_snd (acc : option (string * string) * list string) (e : entry) :
  snd (sql_row prefix_path prefix_name symlink_path acc e) = (snd acc ++ [row_of prefix_path prefix_name symlink_path e])%list.
Proof. destruct acc as [t rows], e as [[p n] m]. reflexivity. Qed.

Lemma sql_row_fst (acc : option (string * string) * list string) (e : entry) :
  fst (sql_row prefix_path prefix_name symlink_path acc e) =
  if (match fst acc with None => true | Some _ => false end && is_zattrs e)
     || is_ome_xml e
  then Some (target_of prefix_path prefix_name symlink_path e)
  else fst acc.
Proof. destruct acc as [t rows], e as [[p n] m]. reflexivity. Qed.

(** Rows come out one per entry, in the order of the walk. *)
Lemma sql_rows_map (es : list entry) :
  snd (sql_rows prefix_path prefix_name symlink_path es) = map (row_of prefix_path prefix_name symlink_path) es.
Proof.
  induction es as [|e es IH] using rev_ind; [reflexivity|].
  rewrite sql_rows_snoc, sql_row_snd, IH, map_app. reflexivity.
Qed.

Lemma find_snoc {A} (f : A -> bool) (l : list A) (x : A) :
  find f (l ++ [x]) =
  match find f l with
  | Some y => Some y
  | None => if f x then Some x else None
  end.
Proof.
  induction l as [|a l IH]; simpl; [reflexivity|].
  destruct (f a); [reflexivity | exact IH].
Qed.

(** What the loop leaves in [setid_target]. *)
Lemma sql_rows_target (es : list entry) :
  fst (sql_rows prefix_path prefix_name symlink_path es) =
  match find is_ome_xml (rev es) with
  | Some e => Some (target_of prefix_path prefix_name symlink_path e)
  | None =>
      match find is_zattrs es with
      | Some e => Some (target_of prefix_path prefix_name symlink_path e)
      | None => None
      end
  end.
Proof.
  induction es as [|e es IH] using rev_ind; [reflexivity|].
  rewrite sql_rows_snoc, sql_row_fst, IH, rev_app_distr, find_snoc.
  simpl rev. simpl app.
  change (find is_ome_xml (e :: rev es))
    with (if is_ome_xml e then Some e else find is_ome_xml (rev es)).
  destruct (is_ome_xml e) eqn:X.
  - now rewrite orb_true_r.
  - rewrite orb_false_r.
    destruct (find is_ome_xml (rev es)); [reflexivity|].
    destruct (find is_zattrs es); [reflexivity|].
    simpl. destruct (is_zattrs e); reflexivity.
Qed.

End RowBuilder.

(* ===================================================================== *)
(** ** Rows and the SetId target *)
(* ===================================================================== *)

Lemma row_full_path_root (prefix_path prefix_name : string) (symlink_path : Path)
    (e : entry) :
  row_full_path prefix_path prefix_name symlink_path e ++ "/" =
  new_prefix_root prefix_path prefix_name
    ++ shorten symlink_path (fst (fst e)) ++ "/".
Proof.
  unfold row_full_path, new_prefix_root, SUFFIX.
  rewrite !append_assoc. reflexivity.
Qed.

(** C5: the rows that [sql] builds correspond one to one to the walked
    entries, and the path of each row starts with
    [<prefix_path>/<prefix_name>_mkngff/] and ends with a slash. *)
Theorem C5_row_paths_rooted_at_new_prefix :
  forall (prefix_path prefix_name : string) (symlink_path : Path) (es : list entry),
    snd (sql_rows prefix_path prefix_name symlink_path es)
      = map (row_of prefix_path prefix_name symlink_path) es
    /\ forall e, In e es ->
         startswith (row_full_path prefix_path prefix_name symlink_path e ++ "/")
                    (prefix_path ++ "/" ++ prefix_name ++ "_mkngff/") = true
         /\ endswith_slash
              (row_full_path prefix_path prefix_name symlink_path e ++ "/") = true.
Proof.
  intros pp pn sp es. split; [apply sql_rows_map|].
  intros e _. split.
  - rewrite row_full_path_root. unfold startswith, new_prefix_root.
    apply prefix_append.
  - apply endswith_slash_append.
Qed.

(** In a run that gets as far as the loop the two halves of the prefix are
    the template prefix itself, so the root is [<templatePrefix>_mkngff/]. *)
Lemma new_prefix_root_of_prefix (prefix prefix_path prefix_name : string) :
  rsplit_slash prefix = Some (prefix_path, prefix_name) ->
  new_prefix_root prefix_path prefix_name = prefix ++ "_mkngff/".
Proof.
  intros H. apply rsplit_slash_append in H. subst prefix.
  unfold new_prefix_root. now rewrite !append_assoc.
Qed.

(** C3, as stated, fails: with [.zattrs] at the top and the legacy
    [METADATA.ome.xml] further down, the first descriptor of the walk is
    [.zattrs], but the target that the loop keeps is the legacy file. *)
Lemma C3_first_match_counterexample :
  let es := walk ome_root ome_tree in
  find is_descriptor es = Some (ome_root, ".zattrs", "application/octet-stream")
  /\ fst (sql_rows "/base" "xyz" ome_root es)
       = Some ("/base/xyz_mkngff/img.zarr/OME", "METADATA.ome.xml")
  /\ fst (sql_rows "/base" "xyz" ome_root es)
       <> Some (target_of "/base" "xyz" ome_root
                  (ome_root, ".zattrs", "application/octet-stream")).
Proof.
  cbv zeta. split; [reflexivity|]. split; [reflexivity|].
  vm_compute. discriminate.
Qed.

(** C3, amended: the target is the last row named [METADATA.ome.xml] when
    the walk has one, and otherwise the first row named [.zattrs]; when the
    walk has neither there is no target. *)
Theorem C3_setid_target_selection :
  forall (prefix_path prefix_name : string) (symlink_path : Path) (es : list entry),
    fst (sql_rows prefix_path prefix_name symlink_path es) =
    match find is_ome_xml (rev es) with
    | Some e => Some (target_of prefix_path prefix_name symlink_path e)
    | None =>
        match find is_zattrs es with
        | Some e => Some (target_of prefix_path prefix_name symlink_path e)
        | None => None
        end
    end.
Proof. intros. apply sql_rows_target. Qed.

(** C4, as stated, fails: the rows built for the scenario are not the three
    expected ones. *)
Lemma C4_scenario_counterexample :
  let rows :=
    snd (sql_rows "/base" "xyz" scenario_root (walk scenario_root scenario_tree)) in
  rsplit_slash "/base/xyz" = Some ("/base", "xyz")
  /\ rows <> scenario_expected_rows
  /\ hd "" rows <> hd "" scenario_expected_rows
  /\ List.length rows = 4.
Proof.
  cbv zeta. split; [reflexivity|]. split; [|split; [|reflexivity]].
  - intros H. apply (f_equal (@List.length string)) in H.
    vm_compute in H. discriminate.
  - vm_compute. discriminate.
Qed.

(** C4, amended: the path of a row is the rewritten directory of the entry,
    not the entry itself, and the marker file of the group is a row too.
    For the container at [/data/root] the loop builds these four rows:
    nothing below [g/arr] is among them. *)
Theorem C4_scenario_rows :
  snd (sql_rows "/base" "xyz" scenario_root (walk scenario_root scenario_tree)) =
  [ROW_format "/base/xyz_mkngff/root/" "a.txt" "application/octet-stream";
   ROW_format "/base/xyz_mkngff/root/" "g" "Directory";
   ROW_format "/base/xyz_mkngff/root/g/" ".zgroup" "application/octet-stream";
   ROW_format "/base/xyz_mkngff/root/g/" "arr" "Directory"].
Proof. reflexivity. Qed.

(* ===================================================================== *)
(** ** The path rewrite *)
(* ===================================================================== *)

Lemma filter_is_part_nonempty (l : list string) :
  Forall (fun x => x <> "") (filter is_part l).
Proof.
  induction l as [|x l IH]; simpl; [constructor|].
  destruct (is_part x) eqn:E; [|exact IH].
  constructor; [|exact IH].
  intros ->. discriminate.
Qed.

Lemma Forall_removelast {A} (P : A -> Prop) (l : list A) :
  Forall P l -> Forall P (removelast l).
Proof.
  induction 1 as [|x l Hx Hl IH]; simpl; [constructor|].
  destruct l; [constructor | now constructor].
Qed.

Lemma str_nonempty (p : Path) :
  Forall (fun x => x <> "") (parts p) -> str p <> "".
Proof.
  destruct p as [a l]. unfold str; simpl. intros H.
  destruct a as [|c a]; [|destruct l; discriminate].
  destruct l as [|x l]; [discriminate|].
  inversion H as [|? ? Hx _]; subst.
  destruct x as [|c x]; [contradiction|].
  unfold join; simpl. destruct l; discriminate.
Qed.

(** The text that is removed from every walked path is never empty. *)
Lemma str_parent_of_string_nonempty (target : string) :
  str (parent (of_string target)) <> "".
Proof.
  apply str_nonempty. unfold of_string.
  destruct (splitroot target) as [root rel]. simpl.
  apply Forall_removelast, filter_is_part_nonempty.
Qed.

(** C10, as stated, fails in its last part: for the container [/a/a/a] the
    directory of the top-level entries is [/a/a/a], which contains the
    removed text [/a/a] at position 2 as well, and still exactly the leading
    [/a/a] is removed, because the two occurrences overlap. *)
Lemma C10_overlap_counterexample :
  let symlink_path := of_string "/a/a/a" in
  let old := str (parent symlink_path) in
  let row_path := parent (make_child symlink_path "f") in
  old = "/a/a"
  /\ str row_path = "/a/a/a"
  /\ String.prefix old (drop 2 (str row_path)) = true
  /\ replace old "" (str row_path) = drop (String.length old) (str row_path).
Proof. cbv zeta. repeat split; reflexivity. Qed.

(** C10, amended: the path of each row is the new root, then the directory
    of the entry with every non-overlapping occurrence of the string of the
    container's parent deleted and one leading slash stripped, then a slash;
    and when the walked directory starts with that string and holds it once
    more behind this leading occurrence, strictly less is left than what
    removing the leading occurrence alone would leave. *)
Theorem C10_rewrite_is_global_replace :
  forall (target prefix_path prefix_name : string) (es : list entry),
    let symlink_path := of_string target in
    let old := str (parent symlink_path) in
    snd (sql_rows prefix_path prefix_name symlink_path es)
      = map (fun e =>
               let r := replace old "" (str (fst (fst e))) in
               ROW_format
                 (new_prefix_root prefix_path prefix_name
                    ++ (if startswith r "/" then drop 1 r else r) ++ "/")
                 (snd (fst e)) (snd e)) es
    /\ forall (row_path : Path) (rest : string),
         str row_path = old ++ rest ->
         contains old rest = true ->
         String.length (replace old "" (str row_path)) < String.length rest.
Proof.
  intros target pp pn es sp old. split.
  - rewrite sql_rows_map. apply map_ext. intros e.
    unfold row_of. now rewrite row_full_path_root.
  - intros row_path rest Hs Hc.
    assert (Hne : old <> "") by apply str_parent_of_string_nonempty.
    rewrite Hs, replace_leading by exact Hne.
    unfold replace. destruct (String.eqb_spec old ""); [contradiction|].
    pose proof (replace_from_contains old rest Hne Hc).
    destruct old; [contradiction|]. simpl in *. lia.
Qed.

(** The container [/a/x] with a group called [a]: the entries of [/a/x/a]
    lose the group's name together with the parent. *)
Lemma C10_rewrite_witness :
  str (of_string "/a/x/a") = str (parent (of_string "/a/x")) ++ "/x/a"
  /\ contains (str (parent (of_string "/a/x"))) "/x/a" = true
  /\ String.length (replace (str (parent (of_string "/a/x"))) "" (str (of_string "/a/x/a")))
       < String.length "/x/a".
Proof.
  split; [reflexivity|]. split; [reflexivity|].
  apply (proj2 (C10_rewrite_is_global_replace "/a/x" "/base" "xyz" [])
           (of_string "/a/x/a") "/x/a"); reflexivity.
Defined.
(* ===================================================================== *)
(** ** The walk *)
(* ===================================================================== *)

(** Induction over containers, with the hypothesis for every entry of a
    directory. *)
Lemma node_nested_ind (P : node -> Prop) :
  (forall n, P (File n)) ->
  (forall n cs, Forall P cs -> P (Dir n cs)) ->
  (forall n, P (Dangling n)) ->
  forall t, P t.
Proof.
  intros HF HD HG. fix IH 1. intros [n|n cs|n].
  - apply HF.
  - apply HD. induction cs as [|c cs IHcs]; constructor; [apply IH | exact IHcs].
  - apply HG.
Qed.

Lemma Path_eqb_eq (p q : Path) : PurePath.eqb p q = true <-> p = q.
Proof.
  destruct p as [a l], q as [b m]. unfold PurePath.eqb; simpl.
  destruct (list_eq_dec string_dec l m) as [->|Hn].
  - rewrite andb_true_r, String.eqb_eq. split; [now intros -> | congruence].
  - rewrite andb_false_r. split; [discriminate | congruence].
Qed.

Lemma parent_make_child (path : Path) (n : string) :
  parent (make_child path n) = path.
Proof. destruct path. unfold parent, make_child; simpl. now rewrite removelast_last. Qed.

Lemma name_make_child (path : Path) (n : string) : name (make_child path n) = n.
Proof. unfold name, make_child; simpl. apply last_last. Qed.

Lemma below_nil (path : Path) : below path [] = path.
Proof. destruct path. unfold below; simpl. now rewrite app_nil_r. Qed.

Lemma below_make_child (path : Path) (n : string) (l : list string) :
  below (make_child path n) l = below path (n :: l).
Proof. unfold below, make_child; simpl. now rewrite <- app_assoc. Qed.

Lemma below_inj (path : Path) (l m : list string) :
  below path l = below path m -> l = m.
Proof. unfold below. intros H. injection H as H. now apply app_inv_head in H. Qed.

(** The first round of [walk_entry], with the children yielded as they are
    built. *)
Lemma walk_entry_eq (path : Path) (t : node) :
  walk_entry path t =
  match t with
  | Dir n cs =>
      if is_array cs || is_group cs
      then (path, n, "Directory")
             :: (if negb (is_array cs) then walk (make_child path n) cs else [])
      else []
  | _ => [(path, node_name t, "application/octet-stream")]
  end.
Proof.
  destruct t as [n|n cs|n]; simpl;
    rewrite ?parent_make_child, ?name_make_child; reflexivity.
Qed.

(** Where the entries of one round come from: the entry of [t] itself, or
    something below [t]. *)
Lemma walk_entry_shape (t : node) :
  forall (path : Path) (e : entry),
    In e (walk_entry path t) ->
    (fst (fst e) = path /\ snd (fst e) = node_name t)
    \/ exists l, fst (fst e) = below path (node_name t :: l).
Proof.
  induction t as [n|n cs IH|n] using node_nested_ind; intros path e He;
    rewrite walk_entry_eq in He.
  - destruct He as [<-|[]]. now left.
  - destruct (is_array cs || is_group cs); [|destruct He].
    destruct He as [<-|He]; [now left|]. right.
    destruct (negb (is_array cs)); [|destruct He].
    unfold walk in He. apply in_flat_map in He. destruct He as [c [Hc He]].
    rewrite Forall_forall in IH.
    destruct (IH c Hc _ _ He) as [[Hp _]|[l Hl]].
    + exists []. rewrite Hp. simpl. now rewrite <- below_make_child, below_nil.
    + exists (node_name c :: l). simpl. now rewrite Hl, below_make_child.
  - destruct He as [<-|[]]. now left.
Qed.

Lemma count_at_nil_rel (path : Path) (l : list entry) : count_at path [] l = 0.
Proof. unfold count_at. induction l; simpl; auto. Qed.

Lemma count_at_app (path : Path) (rel : list string) (l m : list entry) :
  count_at path rel (l ++ m) = count_at path rel l + count_at path rel m.
Proof. unfold count_at. now rewrite filter_app, length_app. Qed.

Lemma count_at_none (path : Path) (rel : list string) (l : list entry) :
  (forall e, In e l -> entry_at path rel e = false) -> count_at path rel l = 0.
Proof.
  unfold count_at. induction l as [|e l IH]; intros H; simpl; [reflexivity|].
  rewrite (H e (or_introl eq_refl)). apply IH. intros; apply H; now right.
Qed.

(** An entry at a place under [n] comes from the round of the entry [n]. *)
Lemma entry_at_shape (path : Path) (n : string) (rel : list string) (e : entry) :
  entry_at path (n :: rel) e = true ->
  match rel with
  | [] => fst (fst e) = path /\ snd (fst e) = n
  | _ :: _ => fst (fst e) = below path (n :: removelast rel)
  end.
Proof.
  unfold entry_at. rewrite andb_true_iff, Path_eqb_eq, String.eqb_eq.
  intros [Hp Hn]. destruct rel as [|r rel].
  - simpl in *. now rewrite below_nil in Hp.
  - exact Hp.
Qed.

Lemma count_walk_entry_other (path : Path) (t : node) (n : string) (rel : list string) :
  node_name t <> n -> count_at path (n :: rel) (walk_entry path t) = 0.
Proof.
  intros Hne. apply count_at_none. intros e He.
  destruct (entry_at path (n :: rel) e) eqn:E; [exfalso|reflexivity].
  apply entry_at_shape in E. apply walk_entry_shape in He.
  destruct rel as [|r rel].
  - destruct E as [Ep En]. destruct He as [[_ Hn]|[l Hl]]; [congruence|].
    rewrite Ep, <- (below_nil path) in Hl at 1. apply below_inj in Hl. discriminate.
  - destruct He as [[Hp _]|[l Hl]].
    + rewrite Hp, <- (below_nil path) in E at 1. apply below_inj in E. discriminate.
    + rewrite Hl in E. apply below_inj in E. congruence.
Qed.

Lemma nodupb_cons (x : string) (l : list string) :
  nodupb (x :: l) = true -> ~ In x l /\ nodupb l = true.
Proof.
  simpl. rewrite andb_true_iff, negb_true_iff. intros [Hx Hl]. split; [|exact Hl].
  intros Hin. assert (existsb (String.eqb x) l = true); [|congruence].
  apply existsb_exists. exists x. split; [exact Hin | apply String.eqb_refl].
Qed.

(** With unique names only the round of the entry called [n] counts. *)
Lemma count_walk_find (path : Path) (n : string) (rel : list string) (ts : list node) :
  nodupb (map node_name ts) = true ->
  count_at path (n :: rel) (walk path ts) =
  match find_child ts n with
  | Some t => count_at path (n :: rel) (walk_entry path t)
  | None => 0
  end.
Proof.
  induction ts as [|t ts IH]; intros Hu; [reflexivity|].
  change (walk path (t :: ts)) with (walk_entry path t ++ walk path ts)%list.
  rewrite count_at_app. simpl map in Hu. apply nodupb_cons in Hu. destruct Hu as [Hx Hu].
  unfold find_child; simpl. destruct (String.eqb_spec (node_name t) n) as [E|E].
  - assert (count_at path (n :: rel) (walk path ts) = 0) as ->; [|lia].
    apply count_at_none. intros e He. unfold walk in He.
    apply in_flat_map in He. destruct He as [c [Hc He]].
    assert (Hcn : node_name c <> n).
    { intros Hcn. apply Hx. rewrite E, <- Hcn. now apply in_map. }
    pose proof (@count_walk_entry_other path c n rel Hcn) as H0.
    unfold count_at in H0. apply length_zero_iff_nil in H0.
    destruct (entry_at path (n :: rel) e) eqn:Ee; [|reflexivity].
    assert (In e (filter (entry_at path (n :: rel)) (walk_entry path c))).
    { apply filter_In. now split. }
    rewrite H0 in H. destruct H.
  - rewrite count_walk_entry_other by exact E. simpl. now apply IH.
Qed.

Lemma find_child_name (ts : list node) (n : string) (t : node) :
  find_child ts n = Some t -> In t ts /\ node_name t = n.
Proof.
  unfold find_child. intros H. apply find_some in H.
  destruct H as [Hin H]. now apply String.eqb_eq in H.
Qed.

(** Nothing that [walk] yields for a directory is an entry of the directory
    above it. *)
Lemma walk_not_at_parent (path : Path) (n m : string) (cs : list node) :
  count_at path [m] (walk (make_child path n) cs) = 0.
Proof.
  apply count_at_none. intros e He.
  destruct (entry_at path [m] e) eqn:E; [exfalso|reflexivity].
  apply entry_at_shape in E. destruct E as [Ep _].
  unfold walk in He. apply in_flat_map in He. destruct He as [c [_ He]].
  apply walk_entry_shape in He. destruct He as [[Hp _]|[l Hl]].
  - rewrite Ep in Hp. rewrite <- (below_nil path) in Hp at 1.
    rewrite <- (below_nil (make_child path n)), below_make_child in Hp.
    apply below_inj in Hp. discriminate.
  - rewrite Ep, below_make_child in Hl. rewrite <- (below_nil path) in Hl at 1.
    apply below_inj in Hl. discriminate.
Qed.

(** The count at a direct entry: one when the entry is yielded. *)
Lemma count_walk_entry_own (path : Path) (t : node) :
  count_at path [node_name t] (walk_entry path t) =
  match t with
  | Dir _ cs => if is_array cs || is_group cs then 1 else 0
  | _ => 1
  end.
Proof.
  assert (Hown : forall m, entry_at path [node_name t] (path, node_name t, m) = true).
  { intros m. unfold entry_at; simpl. rewrite below_nil, String.eqb_refl, andb_true_r.
    now apply Path_eqb_eq. }
  rewrite walk_entry_eq. destruct t as [n|n cs|n]; cbn [node_name] in *.
  - unfold count_at; cbn [filter]. now rewrite (Hown "application/octet-stream").
  - destruct (is_array cs || is_group cs); [|reflexivity].
    change ((path, n, "Directory") :: ?l) with ([(path, n, "Directory")] ++ l)%list.
    rewrite count_at_app.
    assert (count_at path [n] [(path, n, "Directory")] = 1) as ->.
    { unfold count_at; cbn [filter]. now rewrite (Hown "Directory"). }
    destruct (negb (is_array cs)); [|reflexivity].
    now rewrite walk_not_at_parent.
  - unfold count_at; cbn [filter]. now rewrite (Hown "application/octet-stream").
Qed.

(** The count at a place further down is the count in the walk of the
    directory, when [walk] goes into it. *)
Lemma count_walk_entry_deeper (path : Path) (t : node) (r : string) (rel : list string) :
  count_at path (node_name t :: r :: rel) (walk_entry path t) =
  match t with
  | Dir n cs =>
      if descends cs
      then count_at (make_child path n) (r :: rel) (walk (make_child path n) cs)
      else 0
  | _ => 0
  end.
Proof.
  assert (Hown : forall m, entry_at path (node_name t :: r :: rel) (path, node_name t, m) = false).
  { intros m. destruct (entry_at path (node_name t :: r :: rel) (path, node_name t, m)) eqn:E;
      [exfalso|reflexivity].
    apply entry_at_shape in E. simpl fst in E.
    rewrite <- (below_nil path) in E at 1. apply below_inj in E. discriminate. }
  rewrite walk_entry_eq. destruct t as [n|n cs|n]; cbn [node_name] in *.
  - unfold count_at; cbn [filter]. now rewrite (Hown "application/octet-stream").
  - unfold descends.
    destruct (is_array cs), (is_group cs); cbn [orb negb andb];
      try (unfold count_at; cbn [filter]; now rewrite ?(Hown "Directory")).
    change ((path, n, "Directory") :: ?l) with ([(path, n, "Directory")] ++ l)%list.
    rewrite count_at_app.
    assert (count_at path (n :: r :: rel) [(path, n, "Directory")] = 0) as ->.
    { unfold count_at; cbn [filter]. now rewrite (Hown "Directory"). }
    simpl. unfold count_at. f_equal. apply filter_ext. intros e.
    unfold entry_at.
    change (removelast (n :: r :: rel)) with (n :: removelast (r :: rel)).
    change (last (n :: r :: rel) "") with (last (r :: rel) "").
    now rewrite below_make_child.
  - unfold count_at; cbn [filter]. now rewrite (Hown "application/octet-stream").
Qed.

Lemma unique_listing_child (ts : list node) (n m : string) (cs : list node) :
  unique_listing ts = true -> find_child ts n = Some (Dir m cs) ->
  unique_listing cs = true /\ m = n /\ nodupb (map node_name ts) = true.
Proof.
  unfold unique_listing. rewrite andb_true_iff. intros [Hn Hall] Hf.
  apply find_child_name in Hf. destruct Hf as [Hin Hm].
  rewrite forallb_forall in Hall. specialize (Hall _ Hin).
  simpl in Hall, Hm. auto.
Qed.

(** The count of the entries at a place below a listed directory. *)
Lemma count_walk_cons (path : Path) (ts : list node) (n : string) (rel : list string) :
  nodupb (map node_name ts) = true ->
  count_at path (n :: rel) (walk path ts) =
  match find_child ts n with
  | Some t =>
      match rel with
      | [] => match t with
              | Dir _ cs => if is_array cs || is_group cs then 1 else 0
              | _ => 1
              end
      | r :: rel' =>
          match t with
          | Dir _ cs =>
              if descends cs
              then count_at (make_child path n) (r :: rel') (walk (make_child path n) cs)
              else 0
          | _ => 0
          end
      end
  | None => 0
  end.
Proof.
  intros Hu. rewrite count_walk_find by exact Hu.
  destruct (find_child ts n) as [t|] eqn:Hf; [|reflexivity].
  apply find_child_name in Hf. destruct Hf as [_ <-].
  destruct rel as [|r rel'].
  - apply count_walk_entry_own.
  - rewrite count_walk_entry_deeper. destruct t; reflexivity.
Qed.

(** C1, as stated, fails for the walked directory itself, which [walk]
    never classifies: when it holds the array marker its entries are yielded
    all the same.  It also fails for an array below a directory without
    markers: that array is not yielded at all. *)
Lemma C1_walked_root_counterexample :
  let path := of_string "/data/arr.zarr" in
  (let ts := [File ".zarray"; File "0"] in
   subdir ts [] = Some ts
   /\ is_array ts = true
   /\ In (path, "0", "application/octet-stream") (walk path ts)
   /\ count_at path ["0"] (walk path ts) = 1)
  /\
  (let ts := [Dir "c" [Dir "arr" [File ".zarray"; File "0"]]] in
   subdir ts ["c"; "arr"] = Some [File ".zarray"; File "0"]
   /\ count_at path ["c"; "arr"] (walk path ts) = 0).
Proof. cbv zeta. repeat split; try reflexivity. simpl. auto. Qed.

(** C1, amended: for the directories below the walked one.  A directory
    without markers has no entry; nothing below a directory with the array
    marker has an entry; and a directory with the array marker has exactly
    one entry when [walk] goes into every directory between the walked one
    and it, and none otherwise. *)
Theorem C1_walk_skips_chunks_and_array_contents :
  forall (rel : list string) (path : Path) (ts cs : list node),
    unique_listing ts = true ->
    rel <> [] ->
    subdir ts rel = Some cs ->
    (is_array cs = false -> is_group cs = false ->
       count_at path rel (walk path ts) = 0)
    /\ (is_array cs = true ->
          (forall sub, sub <> [] -> count_at path (rel ++ sub) (walk path ts) = 0)
          /\ count_at path rel (walk path ts) = if reached ts rel then 1 else 0).
Proof.
  induction rel as [|n rel IH]; intros path ts cs Hu Hne Hs; [contradiction|].
  simpl in Hs. destruct (find_child ts n) as [[|m cs0|]|] eqn:Hf; try discriminate.
  destruct (unique_listing_child ts n m cs0 Hu Hf) as [Hu0 [-> Hn]].
  destruct rel as [|r rel].
  - injection Hs as ->. split.
    + intros Ha Hg. rewrite count_walk_cons, Hf, Ha, Hg by exact Hn. reflexivity.
    + intros Ha. split.
      * intros [|s sub] Hsub; [contradiction|]. simpl app.
        rewrite count_walk_cons, Hf by exact Hn.
        unfold descends. now rewrite Ha.
      * rewrite count_walk_cons, Hf, Ha by exact Hn. reflexivity.
  - assert (Hr : r :: rel <> []) by discriminate.
    destruct (IH (make_child path n) cs0 cs Hu0 Hr Hs) as [IH1 IH2].
    split.
    + intros Ha Hg. rewrite count_walk_cons, Hf by exact Hn.
      destruct (descends cs0); [now apply IH1 | reflexivity].
    + intros Ha. destruct (IH2 Ha) as [IHb IHc]. split.
      * intros sub Hsub. simpl app.
        change (n :: r :: (rel ++ sub)%list) with (n :: ((r :: rel) ++ sub)%list).
        destruct ((r :: rel) ++ sub)%list as [|r' rel'] eqn:E; [discriminate|].
        rewrite count_walk_cons, Hf by exact Hn.
        destruct (descends cs0); [|reflexivity].
        rewrite <- E. now apply IHb.
      * rewrite count_walk_cons, Hf by exact Hn.
        change (reached ts (n :: r :: rel))
          with (match find_child ts n with
                | Some (Dir _ cs') => descends cs' && reached cs' (r :: rel)
                | _ => false
                end).
        rewrite Hf. destruct (descends cs0); [exact IHc | reflexivity].
Qed.

(** The scenario container: [g/arr] is an array that the walk reaches. *)
Lemma C1_walk_witness :
  unique_listing scenario_tree = true
  /\ ["g"; "arr"] <> []
  /\ subdir scenario_tree ["g"; "arr"] = Some [File ".zarray"; File "0"; File "1"]
  /\ (is_array [File ".zarray"; File "0"; File "1"] = true ->
      (forall sub, sub <> [] ->
         count_at scenario_root (["g"; "arr"] ++ sub) (walk scenario_root scenario_tree) = 0)
      /\ count_at scenario_root ["g"; "arr"] (walk scenario_root scenario_tree)
         = if reached scenario_tree ["g"; "arr"] then 1 else 0).
Proof.
  split; [reflexivity|]. split; [discriminate|]. split; [reflexivity|].
  apply (C1_walk_skips_chunks_and_array_contents
           ["g"; "arr"] scenario_root scenario_tree
           [File ".zarray"; File "0"; File "1"]);
    [reflexivity | discriminate | reflexivity].
Defined.

(* ===================================================================== *)
(** ** Facts about the file system *)
(* ===================================================================== *)

Lemma assoc_app (n : string) (es es' : list (string * inode)) :
  assoc n (es ++ es')%list =
  match assoc n es with
  | Some t => Some t
  | None => assoc n es'
  end.
Proof.
  induction es as [|[m t] es IH]; simpl; [reflexivity|].
  destruct (String.eqb m n); [reflexivity | exact IH].
Qed.

Lemma assoc_map (n a : string) (f : inode -> inode) (es : list (string * inode)) :
  assoc n (map (fun e => if String.eqb (fst e) a then (fst e, f (snd e)) else e) es) =
  match assoc n es with
  | Some t => Some (if String.eqb n a then f t else t)
  | None => None
  end.
Proof.
  induction es as [|[m t] es IH]; simpl; [reflexivity|].
  destruct (String.eqb_spec m a) as [->|Hma]; simpl.
  - destruct (String.eqb_spec a n) as [->|Han].
    + now rewrite String.eqb_refl.
    + exact IH.
  - destruct (String.eqb_spec m n) as [->|Hmn].
    + destruct (String.eqb_spec n a); [contradiction | reflexivity].
    + exact IH.
Qed.

(** Adding an entry keeps what was there, up to the entries of the
    directories on the way. *)
Lemma lookup_insert_kind (q : list string) (c : string) (y : inode) :
  forall (d : inode) (p : list string) (x : inode),
    lookup d p = Some x ->
    exists x', lookup (insert d q c y) p = Some x' /\ kind_of x' = kind_of x.
Proof.
  induction q as [|a q IH]; intros d p x H.
  - destruct d as [|es|tgt]; simpl; try (exists x; now split).
    destruct p as [|b p]; simpl in *.
    + injection H as <-. eexists; split; reflexivity.
    + rewrite assoc_app. destruct (assoc b es); [|discriminate].
      exists x; now split.
  - destruct d as [|es|tgt]; simpl; try (exists x; now split).
    destruct p as [|b p]; simpl in *.
    + injection H as <-. eexists; split; reflexivity.
    + rewrite (assoc_map b a (fun s => insert s q c y)).
      destruct (assoc b es) as [t|]; [|discriminate].
      destruct (String.eqb b a); [now apply IH | exists x; now split].
Qed.

Lemma insert_sub_disk (d : inode) (q : list string) (c : string) (y : inode) :
  sub_disk d (insert d q c y).
Proof.
  intros p k H. unfold lstat in *.
  destruct (lookup d p) as [x|] eqn:L; [|discriminate].
  destruct (lookup_insert_kind q c y d p x L) as [x' [-> Hk]].
  simpl in *. congruence.
Qed.

Lemma sub_disk_refl (d : inode) : sub_disk d d.
Proof. intros p k H; exact H. Qed.

Lemma sub_disk_trans (d1 d2 d3 : inode) :
  sub_disk d1 d2 -> sub_disk d2 d3 -> sub_disk d1 d3.
Proof. intros H1 H2 p k H. apply H2, H1, H. Qed.

(** The new entry is where it was put. *)
Lemma lookup_insert_new (q : list string) (c : string) (y : inode) :
  forall d : inode,
    lstat d q = Some KDir -> lstat d (q ++ [c]) = None ->
    lookup (insert d q c y) (q ++ [c]) = Some y.
Proof.
  unfold lstat. induction q as [|a q IH]; intros d Hd Hc.
  - destruct d as [|es|tgt]; try discriminate. simpl in *.
    rewrite assoc_app. destruct (assoc c es); [discriminate|].
    simpl. now rewrite String.eqb_refl.
  - destruct d as [|es|tgt]; try discriminate. simpl in *.
    rewrite (assoc_map a a (fun s => insert s q c y)), String.eqb_refl.
    destruct (assoc a es) as [t|]; [|discriminate].
    now apply IH.
Qed.

(** *** Path resolution *)

Lemma resolve_nil (fuel : nat) (d : inode) (follow : bool) (cur : list string) :
  resolve fuel d follow cur [] = inr cur.
Proof. destruct fuel; reflexivity. Qed.

Lemma resolve_cons (fuel : nat) (d : inode) (follow : bool)
    (cur : list string) (c : string) (rest : list string) :
  resolve fuel d follow cur (c :: rest) =
  if String.eqb c "" || String.eqb c "." then resolve fuel d follow cur rest
  else if String.eqb c ".." then resolve fuel d follow (removelast cur) rest
  else
    match lstat d (cur ++ [c]) with
    | None => inl ENOENT
    | Some KDir => resolve fuel d follow (cur ++ [c]) rest
    | Some KFile =>
        match rest with
        | [] => inr (cur ++ [c])%list
        | _ => inl ENOTDIR
        end
    | Some (KLink tgt) =>
        match rest, follow with
        | [], false => inr (cur ++ [c])%list
        | _, _ =>
            match fuel with
            | O => inl ELOOP
            | S k => resolve k d follow
                       (if is_abs tgt then [] else cur)
                       (split_slash tgt ++ rest)
            end
        end
    end.
Proof. destruct fuel; reflexivity. Qed.

(** [resolve_left] resolves as [resolve] does. *)
Lemma resolve_left_agrees (d : inode) (follow : bool) :
  forall (fuel : nat) (todo cur : list string),
    resolve fuel d follow cur todo =
    match resolve_left fuel d follow cur todo with
    | inl e => inl e
    | inr (_, q) => inr q
    end.
Proof.
  assert (Hnil : forall fuel cur, resolve_left fuel d follow cur [] = inr (fuel, cur))
    by (intros [|k] cur; reflexivity).
  assert (Hcons : forall fuel cur c rest,
             resolve_left fuel d follow cur (c :: rest) =
             if String.eqb c "" || String.eqb c "." then resolve_left fuel d follow cur rest
             else if String.eqb c ".." then resolve_left fuel d follow (removelast cur) rest
             else
               match lstat d (cur ++ [c]) with
               | None => inl ENOENT
               | Some KDir => resolve_left fuel d follow (cur ++ [c]) rest
               | Some KFile =>
                   match rest with
                   | [] => inr (fuel, (cur ++ [c])%list)
                   | _ => inl ENOTDIR
                   end
               | Some (KLink tgt) =>
                   match rest, follow with
                   | [], false => inr (fuel, (cur ++ [c])%list)
                   | _, _ =>
                       match fuel with
                       | O => inl ELOOP
                       | S k => resolve_left k d follow
                                  (if is_abs tgt then [] else cur)
                                  (split_slash tgt ++ rest)
                       end
                   end
               end)
    by (intros [|k] cur c rest; reflexivity).
  induction fuel as [|k IHk];
    induction todo as [|c rest IHt]; intros cur;
    rewrite ?resolve_nil, ?Hnil, ?resolve_cons, ?Hcons; auto;
    (destruct (String.eqb c "" || String.eqb c "."); [apply IHt|]);
    (destruct (String.eqb c ".."); [apply IHt|]);
    (destruct (lstat d (cur ++ [c])) as [[| |tgt]|]; auto);
    destruct rest, follow; auto.
Qed.

(** A path that resolves keeps resolving, to the same place, when entries
    are added. *)
Lemma resolve_sub_disk (d d' : inode) (follow : bool) :
  sub_disk d d' ->
  forall (fuel : nat) (todo cur q : list string),
    resolve fuel d follow cur todo = inr q ->
    resolve fuel d' follow cur todo = inr q.
Proof.
  intros Hsub. induction fuel as [|k IHk];
    induction todo as [|c rest IHt]; intros cur q;
    rewrite ?resolve_nil, ?resolve_cons; auto;
    (destruct (String.eqb c "" || String.eqb c "."); [apply IHt|]);
    (destruct (String.eqb c ".."); [apply IHt|]);
    (destruct (lstat d (cur ++ [c])) as [[| |tgt]|] eqn:L; [| | |discriminate]);
    rewrite (Hsub _ _ L); auto;
    destruct rest, follow; auto.
Qed.

(** Resolution of a path with one more plain component, which names a
    directory of the place that the path leads to. *)
Lemma resolve_snoc (d : inode) (c : string) :
  plain c = true ->
  forall (fuel : nat) (todo cur q : list string),
    resolve fuel d true cur todo = inr q ->
    lstat d q = Some KDir ->
    lstat d (q ++ [c]) = Some KDir ->
    resolve fuel d true cur (todo ++ [c]) = inr (q ++ [c])%list.
Proof.
  unfold plain, is_comp. rewrite !andb_true_iff, !negb_true_iff. intros [[H1 H2] H3].
  assert (Hc : forall fuel cur, lstat d (cur ++ [c]) = Some KDir ->
                           resolve fuel d true cur [c] = inr (cur ++ [c])%list).
  { intros fuel cur L. rewrite resolve_cons, H1, H2, H3, L. simpl. apply resolve_nil. }
  induction fuel as [|k IHk];
    induction todo as [|a rest IHt]; intros cur q; simpl app;
    rewrite ?resolve_nil;
    try (intros H _ L; injection H as <-; now apply Hc);
    rewrite !resolve_cons;
    (destruct (String.eqb a "" || String.eqb a "."); [apply IHt|]);
    (destruct (String.eqb a ".."); [apply IHt|]);
    (destruct (lstat d (cur ++ [a])) as [[| |tgt]|] eqn:L; [| | |discriminate]).
  - destruct rest; [|discriminate]. intros H Hq. injection H as <-. congruence.
  - apply IHt.
  - destruct rest; discriminate.
  - destruct rest; [|discriminate]. intros H Hq. injection H as <-. congruence.
  - apply IHt.
  - intros H Hq Hqc. destruct rest as [|b rest].
    + rewrite app_nil_r in H. simpl app. now apply IHk.
    + change ((b :: rest) ++ [c])%list with (b :: rest ++ [c])%list.
      change (split_slash tgt ++ b :: rest ++ [c])%list
        with (split_slash tgt ++ (b :: rest) ++ [c])%list.
      rewrite app_assoc. now apply IHk.
Qed.

(** The bound on followed links is never unfolded in what follows. *)
#[local] Opaque MAXSYMLINKS.

(** *** Creating entries *)

Lemma forallb_rev {A} (f : A -> bool) (l : list A) :
  forallb f (rev l) = forallb f l.
Proof.
  induction l as [|a l IH]; [reflexivity|].
  simpl. rewrite forallb_app, IH. simpl. rewrite andb_true_r. apply andb_comm.
Qed.

Lemma create_c_inv (d d' : inode) (from todo : list string) (x : inode) :
  create_c d from todo x = (d', None) ->
  exists head c q,
    todo = (head ++ [c])%list
    /\ String.eqb c ".." = false
    /\ Nat.ltb NAME_MAX (String.length c) = false
    /\ resolve MAXSYMLINKS d true from head = inr q
    /\ lstat d q = Some KDir
    /\ lstat d (q ++ [c]) = None
    /\ d' = insert d q c x.
Proof.
  unfold create_c. destruct (rev todo) as [|c rhead] eqn:R; [discriminate|].
  destruct (String.eqb c "..") eqn:Ec; [discriminate|].
  destruct (Nat.ltb NAME_MAX (String.length c)) eqn:El; [discriminate|].
  destruct (resolve MAXSYMLINKS d true from (rev rhead)) as [e|q] eqn:Rs; [discriminate|].
  destruct (lstat d q) as [[| |tgt]|] eqn:Lq; try discriminate.
  destruct (lstat d (q ++ [c])) eqn:Lc; [discriminate|].
  intros H. injection H as <-.
  exists (rev rhead), c, q. repeat split; auto.
  rewrite <- (rev_involutive todo), R. reflexivity.
Qed.

Lemma create_c_sub_disk (d : inode) (from todo : list string) (x : inode) :
  sub_disk d (fst (create_c d from todo x)).
Proof.
  unfold create_c. destruct (rev todo) as [|c rhead]; [apply sub_disk_refl|].
  destruct (String.eqb c ".."); [apply sub_disk_refl|].
  destruct (Nat.ltb NAME_MAX (String.length c)); [apply sub_disk_refl|].
  destruct (resolve MAXSYMLINKS d true from (rev rhead)) as [e|q]; [apply sub_disk_refl|].
  destruct (lstat d q) as [[| |tgt]|]; try apply sub_disk_refl.
  destruct (lstat d (q ++ [c])); [apply sub_disk_refl | apply insert_sub_disk].
Qed.

Lemma isdir_c_sub_disk (d d' : inode) (from todo : list string) :
  sub_disk d d' -> isdir_c d from todo = true -> isdir_c d' from todo = true.
Proof.
  intros Hs. unfold isdir_c.
  destruct (resolve MAXSYMLINKS d true from todo) as [e|q] eqn:R; [discriminate|].
  rewrite (resolve_sub_disk _ _ true Hs _ _ _ _ R).
  destruct (lstat d q) as [[| |tgt]|] eqn:L; try discriminate.
  now rewrite (Hs _ _ L).
Qed.

Lemma exists_c_sub_disk (d d' : inode) (from todo : list string) :
  sub_disk d d' -> exists_c d from todo = true -> exists_c d' from todo = true.
Proof.
  intros Hs. unfold exists_c.
  destruct (resolve MAXSYMLINKS d true from todo) as [e|q] eqn:R; [discriminate|].
  now rewrite (resolve_sub_disk _ _ true Hs _ _ _ _ R).
Qed.

(** After [mkdir] the path names a directory. *)
Lemma create_c_dir_post (d d' : inode) (from todo : list string) :
  forallb is_comp todo = true ->
  create_c d from todo (IDir []) = (d', None) ->
  isdir_c d' from todo = true.
Proof.
  intros Hall H. destruct (create_c_inv _ _ _ _ _ H) as (head & c & q & -> & Ec & El & R & Lq & Lc & ->).
  assert (Hs := insert_sub_disk d q c (IDir [])).
  assert (Hp : plain c = true).
  { rewrite forallb_app, andb_true_iff in Hall. destruct Hall as [_ Hc].
    simpl in Hc. rewrite andb_true_r in Hc. unfold plain. now rewrite Hc, Ec. }
  assert (Lc' : lstat (insert d q c (IDir [])) (q ++ [c]) = Some KDir).
  { unfold lstat. now rewrite (lookup_insert_new q c (IDir []) d Lq Lc). }
  unfold isdir_c.
  rewrite (resolve_snoc _ _ Hp _ _ _ _ (resolve_sub_disk _ _ true Hs _ _ _ _ R) (Hs _ _ Lq) Lc').
  now rewrite Lc'.
Qed.

(** A second attempt to create the same entry finds it. *)
Lemma create_c_again (d d' : inode) (from todo : list string) (x y : inode) :
  create_c d from todo x = (d', None) ->
  create_c d' from todo y = (d', Some EEXIST)
  /\ exists q c, lookup d' (q ++ [c]) = Some x.
Proof.
  intros H. destruct (create_c_inv _ _ _ _ _ H) as (head & c & q & -> & Ec & El & R & Lq & Lc & ->).
  assert (Hs := insert_sub_disk d q c x).
  assert (Lx := lookup_insert_new q c x d Lq Lc).
  split; [|now exists q, c].
  unfold create_c. rewrite rev_app_distr. simpl. rewrite Ec, El, rev_involutive.
  rewrite (resolve_sub_disk _ _ true Hs _ _ _ _ R), (Hs _ _ Lq).
  unfold lstat at 1. now rewrite Lx.
Qed.

(** *** [makedirs] *)

Lemma makedirs_c_sub_disk (from rtodo : list string) :
  forall d, sub_disk d (fst (makedirs_c d from rtodo)).
Proof.
  induction rtodo as [|c rhead IH]; intros d; [apply sub_disk_refl|].
  cbn [makedirs_c].
  destruct (isdir_c d from (rev (c :: rhead))); [apply sub_disk_refl|].
  match goal with |- context [let '(d1, e1) := ?X in _] => destruct X as [d1 e1] eqn:E end.
  assert (S1 : sub_disk d d1).
  { destruct rhead as [|b rhead'].
    - injection E as <- _. apply sub_disk_refl.
    - destruct (exists_c d from (rev (b :: rhead'))).
      + injection E as <- _. apply sub_disk_refl.
      + specialize (IH d). destruct (makedirs_c d from (b :: rhead')) as [d0 [[| | | |]|]];
          injection E as <- _; exact IH. }
  clear E. destruct e1 as [e|]; [exact S1|].
  pose proof (create_c_sub_disk d1 from (rev (c :: rhead)) (IDir [])) as H2.
  destruct (create_c d1 from (rev (c :: rhead)) (IDir [])) as [d2 [e|]]; simpl in H2.
  - destruct (isdir_c d2 from (rev (c :: rhead))); eapply sub_disk_trans; eauto.
  - eapply sub_disk_trans; eauto.
Qed.

(** A successful [makedirs] leaves a directory behind. *)
Lemma makedirs_c_post (d d' : inode) (from rtodo : list string) :
  rtodo <> [] ->
  forallb is_comp rtodo = true ->
  makedirs_c d from rtodo = (d', None) ->
  isdir_c d' from (rev rtodo) = true.
Proof.
  destruct rtodo as [|c rhead]; [contradiction|]. intros _ Hall.
  cbn [makedirs_c].
  destruct (isdir_c d from (rev (c :: rhead))) eqn:Hd.
  - intros H; injection H as <-. exact Hd.
  - match goal with |- context [let '(d1, e1) := ?X in _] => destruct X as [d1 [e|]] end;
      [discriminate|].
    destruct (create_c d1 from (rev (c :: rhead)) (IDir [])) as [d2 [e|]] eqn:C.
    + destruct (isdir_c d2 from (rev (c :: rhead))) eqn:Hd2; [|discriminate].
      intros H; injection H as <-. exact Hd2.
    + intros H; injection H as <-.
      apply (create_c_dir_post d1); [|exact C].
      now rewrite forallb_rev.
Qed.

(** An existing directory is left alone. *)
Lemma makedirs_c_noop (d : inode) (from rtodo : list string) :
  rtodo = [] \/ isdir_c d from (rev rtodo) = true ->
  makedirs_c d from rtodo = (d, None).
Proof.
  destruct rtodo as [|c rhead]; [reflexivity|].
  intros [H|H]; [discriminate|]. cbn [makedirs_c]. now rewrite H.
Qed.

Lemma forallb_is_comp_comps (s : string) : forallb is_comp (comps s) = true.
Proof.
  unfold comps. apply forallb_forall. intros x Hx.
  now apply filter_In in Hx.
Qed.

(* ===================================================================== *)
(** ** The symlink topology *)
(* ===================================================================== *)

(** [create_symlink], step by step. *)
Lemma create_symlink_run (repo prefix : string) (sp : Path) (target : string) (w : world) :
  create_symlink repo prefix sp target w =
  let prefix_dir := os_path_join repo prefix in
  let symlink_dir := prefix_dir ++ "_" ++ SUFFIX in
  let source := os_path_join symlink_dir (name sp) in
  let e1 := (err w ++ [("Checking for prefix_dir " ++ prefix_dir)%string])%list in
  let e2 := (e1 ++ [("Creating dir at " ++ symlink_dir)%string])%list in
  let e3 := (e2 ++ [("Creating symlink " ++ source ++ " -> " ++ target)%string])%list in
  let W := fun d e => mkWorld d (cwd w) (filesets w) (repositories w) (out w) e in
  if negb (exists_ (disk w) (cwd w) prefix_dir)
  then (inl (Die 402 ("Fileset dir does not exist: " ++ prefix_dir)),
        W (disk w) (e1 ++ [("Fileset dir does not exist: " ++ prefix_dir)%string])%list)
  else
    match makedirs (disk w) (cwd w) symlink_dir with
    | (d1, Some e) => (inl (OSError e), W d1 e2)
    | (d1, None) =>
        if has_nul target || has_nul source then (inl ValueError, W d1 e3)
        else
          match OS.symlink d1 (cwd w) target source with
          | (d2, Some e) => (inl (OSError e), W d2 e3)
          | (d2, None) => (inr tt, W d2 e3)
          end
    end.
Proof.
  destruct w as [d c fs rs o e].
  cbv beta iota zeta delta
    [create_symlink bind ctx_err get ctx_die raise ret os_call os_symlink negb
     disk cwd filesets repositories out err].
  destruct (exists_ d c (os_path_join repo prefix));
    cbv beta iota zeta delta [negb disk cwd filesets repositories out err];
    [|reflexivity].
  destruct (makedirs d c _) as [d1 [e1|]];
    cbv beta iota zeta delta [negb disk cwd filesets repositories out err];
    [reflexivity|].
  destruct (has_nul target || has_nul _);
    cbv beta iota zeta delta
      [raise os_call disk cwd filesets repositories out err];
    [reflexivity|].
  destruct (OS.symlink d1 c target _) as [d2 [e2|]]; reflexivity.
Qed.

(** Once [create_symlink] has succeeded (its target is then a link text
    that [os.symlink] takes), a call for the same repository, prefix and
    container name in any world with the disk and working directory it left
    goes as far as [os.symlink] and fails there: on the link text if that
    is refused, on the name that is taken otherwise. *)
Lemma create_symlink_again (repo prefix : string) (sp : Path) (target : string)
    (w w1 : world) :
  create_symlink repo prefix sp target w = (inr tt, w1) ->
  refused target = None
  /\ forall (w2 : world) (sp' : Path) (target' : string),
       name sp' = name sp -> disk w2 = disk w1 -> cwd w2 = cwd w1 ->
       fst (create_symlink repo prefix sp' target' w2)
         = inl (match refused target' with
                | Some e => e
                | None => OSError EEXIST
                end)
       /\ disk (snd (create_symlink repo prefix sp' target' w2)) = disk w2.
Proof.
  rewrite create_symlink_run. cbv zeta.
  set (prefix_dir := os_path_join repo prefix).
  set (symlink_dir := prefix_dir ++ "_" ++ SUFFIX).
  destruct (exists_ (disk w) (cwd w) prefix_dir) eqn:Hex; cbn [negb]; [|discriminate].
  destruct (makedirs (disk w) (cwd w) symlink_dir) as [d1 [e|]] eqn:Hmk; [discriminate|].
  destruct (has_nul target || has_nul (os_path_join symlink_dir (name sp)))
    eqn:Hnul; [discriminate|].
  apply orb_false_elim in Hnul. destruct Hnul as [Hnt Hns].
  destruct (OS.symlink d1 (cwd w) target (os_path_join symlink_dir (name sp)))
    as [d2 [e|]] eqn:Hln; [discriminate|].
  intros H. injection H as <-. cbn [disk cwd].
  unfold makedirs in Hmk.
  destruct (String.eqb symlink_dir "") eqn:Hne; [discriminate|].
  unfold OS.symlink in Hln.
  destruct (getname target) eqn:Hgt; [discriminate|].
  destruct (getname (os_path_join symlink_dir (name sp))) eqn:Hgs; [discriminate|].
  split; [unfold refused; now rewrite Hnt, Hgt|].
  assert (S01 : sub_disk (disk w) d1).
  { pose proof (makedirs_c_sub_disk (start (cwd w) symlink_dir)
                  (rev (comps symlink_dir)) (disk w)) as S. now rewrite Hmk in S. }
  assert (S12 : sub_disk d1 d2).
  { pose proof (create_c_sub_disk d1 (start (cwd w) (os_path_join symlink_dir (name sp)))
                  (comps (os_path_join symlink_dir (name sp))) (ILink target)) as S.
    now rewrite Hln in S. }
  assert (Hdir : comps symlink_dir = []
                 \/ isdir_c d2 (start (cwd w) symlink_dir) (comps symlink_dir) = true).
  { destruct (comps symlink_dir) as [|c l] eqn:Ec; [now left|right].
    apply (isdir_c_sub_disk _ _ _ _ S12).
    rewrite <- (rev_involutive (c :: l)).
    apply (makedirs_c_post (disk w)); [| |exact Hmk].
    - intros E. apply (f_equal (@List.length string)) in E.
      rewrite length_rev in E. discriminate.
    - rewrite forallb_rev, <- Ec. apply forallb_is_comp_comps. }
  intros w2 sp' target' Hname Hd2 Hc2.
  rewrite create_symlink_run. cbv zeta. rewrite Hd2, Hc2, Hname.
  fold prefix_dir. fold symlink_dir.
  assert (Hex2 : exists_ d2 (cwd w) prefix_dir = true).
  { unfold exists_ in *. destruct (getname prefix_dir); [discriminate|].
    apply (exists_c_sub_disk _ _ _ _ (sub_disk_trans _ _ _ S01 S12) Hex). }
  rewrite Hex2. cbn [negb].
  unfold makedirs. rewrite Hne.
  rewrite makedirs_c_noop.
  2:{ destruct Hdir as [E|E]; [left; now rewrite E | right; now rewrite rev_involutive]. }
  unfold refused. rewrite Hns.
  destruct (has_nul target'); cbn [orb]; [now split|].
  unfold OS.symlink.
  destruct (getname target'); cbn [option_map]; [now split|].
  rewrite Hgs.
  destruct (create_c_again _ _ _ _ _ (ILink target') Hln) as [-> _].
  now split.
Qed.

(** C8, as stated, fails: a second call of [create_symlink] with the very
    same arguments is not a call that goes through.  The first call links
    the scenario container under the fileset [user_2/xyz]; the second one
    raises [FileExistsError]. *)
Lemma C8_identical_second_call_counterexample :
  let w1 := snd (create_symlink "/repo" "user_2/xyz" scenario_root "/data/root"
                   example_world) in
  fst (create_symlink "/repo" "user_2/xyz" scenario_root "/data/root" example_world)
    = inr tt
  /\ fst (create_symlink "/repo" "user_2/xyz" scenario_root "/data/root" w1)
     = inl (OSError EEXIST)
  /\ fst (create_symlink "/repo" "user_2/xyz" scenario_root "/data/root" w1)
     <> inr tt.
Proof.
  cbv zeta. split; [vm_compute; reflexivity|]. split; [vm_compute; reflexivity|].
  vm_compute. discriminate.
Qed.

(** C8, amended: after one successful [create_symlink] (its target is then
    a link text that [os.symlink] takes), any further call for the same
    repository, prefix and container name fails and leaves the disk as it
    is: the mirror directory is kept, the link is not overwritten.  The
    call raises [FileExistsError], whether the link text asked for is the
    one of the existing link or another one; only a link text that
    [os.symlink] refuses on its own (empty, too long, or with a NUL
    character) fails with that refusal instead. *)
Theorem C8_create_symlink_twice :
  forall (repo prefix : string) (sp : Path) (target : string) (w w1 : world),
    create_symlink repo prefix sp target w = (inr tt, w1) ->
    refused target = None
    /\ forall (sp' : Path) (target' : string),
         name sp' = name sp ->
         exists w2,
           create_symlink repo prefix sp' target' w1
             = (inl (match refused target' with
                     | Some e => e
                     | None => OSError EEXIST
                     end), w2)
           /\ disk w2 = disk w1.
Proof.
  intros repo prefix sp target w w1 H.
  destruct (create_symlink_again _ _ _ _ _ _ H) as [Htgt Hagain].
  split; [exact Htgt|]. intros sp' target' Hname.
  destruct (Hagain w1 sp' target' Hname eq_refl eq_refl) as [Hfst Hdisk].
  destruct (create_symlink repo prefix sp' target' w1) as [r w2].
  cbn [fst snd] in Hfst, Hdisk. subst r. now exists w2.
Qed.

(** The scenario container, linked under the fileset [user_2/xyz]: a second
    call, for the same target or for another one, finds the link. *)
Lemma C8_create_symlink_twice_witness :
  let w1 := snd (create_symlink "/repo" "user_2/xyz" scenario_root "/data/root"
                   example_world) in
  create_symlink "/repo" "user_2/xyz" scenario_root "/data/root" example_world
    = (inr tt, w1)
  /\ refused "/data/root" = None
  /\ forall (sp' : Path) (target' : string),
       name sp' = name scenario_root ->
       exists w2,
         create_symlink "/repo" "user_2/xyz" sp' target' w1
           = (inl (match refused target' with
                   | Some e => e
                   | None => OSError EEXIST
                   end), w2)
         /\ disk w2 = disk w1.
Proof.
  cbv zeta. split; [vm_compute; reflexivity|].
  apply (C8_create_symlink_twice "/repo" "user_2/xyz" scenario_root "/data/root"
           example_world).
  vm_compute; reflexivity.
Defined.

(* ===================================================================== *)
(** ** The [sql] command *)
(* ===================================================================== *)

(** The part of [sql] that follows the symlink: the walk, the rows and the
    two writes. *)
Lemma sql_walk_run (args : Namespace) (pp pn : string) (w2 : world) :
  let sp := of_string (symlink_target args) in
  (listing <- iterdir sp ;;
   let '(setid_target, rows) := sql_rows pp pn sp (walk sp listing) in
   match setid_target with
   | None => raise TypeError
   | Some (fpath, fname) =>
       ctx_out (UPDATE_format fname fpath (fileset_id args)) ;;;
       repo <- get_uuid args ;;
       ctx_out
         (TEMPLATE_format (of_int (fileset_id args)) (secret args) repo
            (pp ++ "/" ++ pn ++ "_" ++ SUFFIX ++ "/")
            (join ("," ++ LF) rows))
   end) w2 =
  match scandir (disk w2) (cwd w2) (str sp) with
  | inl e => (inl (OSError e), w2)
  | inr listing =>
      match sql_rows pp pn sp (walk sp listing) with
      | (None, _) => (inl TypeError, w2)
      | (Some (fpath, fname), rows) =>
          let w3 := log_out w2 (UPDATE_format fname fpath (fileset_id args)) in
          match find (fun pair => snd pair) (repositories w2) with
          | None =>
              (inl (Die 402 ("Failed to find managed repository (count="
                               ++ of_int (Z.of_nat (List.length (repositories w2)))
                               ++ ")")),
                       log_err w3 ("Failed to find managed repository (count="
                               ++ of_int (Z.of_nat (List.length (repositories w2)))
                               ++ ")"))
          | Some (desc, _) =>
              (inr tt,
               log_out w3
                 (TEMPLATE_format (of_int (fileset_id args)) (secret args) desc
                    (pp ++ "/" ++ pn ++ "_" ++ SUFFIX ++ "/")
                    (join ("," ++ LF) rows)))
          end
      end
  end.
Proof.
  cbv zeta. unfold bind at 1. unfold iterdir, bind at 1. unfold get at 1.
  destruct (scandir (disk w2) (cwd w2) (str (of_string (symlink_target args))))
    as [e|listing]; [reflexivity|].
  unfold ret at 1.
  destruct (sql_rows pp pn (of_string (symlink_target args))
              (walk (of_string (symlink_target args)) listing)) as [[[fpath fname]|] rows];
    [|reflexivity].
  unfold bind at 1. unfold ctx_out at 1. cbv beta iota.
  fold (log_out w2 (UPDATE_format fname fpath (fileset_id args))).
  set (w3 := log_out w2 _).
  unfold bind at 1. unfold get_uuid, bind at 1. unfold get at 1.
  change (repositories w3) with (repositories w2).
  destruct (find (fun pair => snd pair) (repositories w2)) as [[desc m]|];
    reflexivity.
Qed.

(** [sql], step by step. *)
Lemma sql_run (args : Namespace) (w : world) :
  sql args w =
  match findAllByQuery w (fileset_id args) with
  | [p] =>
      let prefix := normalized p in
      match rsplit_slash prefix with
      | None => (inl ValueError, w)
      | Some (pp, pn) =>
          let w1 := log_err w ("Found prefix " ++ pp ++ " // " ++ pn
                                 ++ " for fileset " ++ of_int (fileset_id args)) in
          let sp := of_string (symlink_target args) in
          if negb (exists_ (disk w) (cwd w) (str sp))
          then (inl (Die 401 ("Symlink target does not exist: "
                                ++ symlink_target args)),
                log_err w1 ("Symlink target does not exist: " ++ symlink_target args))
          else
            match (match truthy (symlink_repo args) with
                   | Some repo => create_symlink repo prefix sp (symlink_target args) w1
                   | None => (inr tt, w1)
                   end) with
            | (inl e, w2) => (inl e, w2)
            | (inr _, w2) =>
                match scandir (disk w2) (cwd w2) (str sp) with
                | inl e => (inl (OSError e), w2)
                | inr listing =>
                    match sql_rows pp pn sp (walk sp listing) with
                    | (None, _) => (inl TypeError, w2)
                    | (Some (fpath, fname), rows) =>
                        let w3 := log_out w2 (UPDATE_format fname fpath (fileset_id args)) in
                        match find (fun pair => snd pair) (repositories w2) with
                        | None =>
                            (inl (Die 402 ("Failed to find managed repository (count="
                                             ++ of_int (Z.of_nat (List.length (repositories w2)))
                                             ++ ")")),
                                     log_err w3 ("Failed to find managed repository (count="
                                             ++ of_int (Z.of_nat (List.length (repositories w2)))
                                             ++ ")"))
                        | Some (desc, _) =>
                            (inr tt,
                             log_out w3
                               (TEMPLATE_format (of_int (fileset_id args)) (secret args) desc
                                  (pp ++ "/" ++ pn ++ "_" ++ SUFFIX ++ "/")
                                  (join ("," ++ LF) rows)))
                        end
                    end
                end
            end
      end
  | rv =>
      (inl (Die 400 ("Found wrong number of filesets: "
                       ++ of_int (Z.of_nat (List.length rv)))),
       log_err w ("Found wrong number of filesets: "
                    ++ of_int (Z.of_nat (List.length rv))))
  end.
Proof.
  unfold sql, get_prefix, bind at 1 2. unfold get at 1.
  destruct (findAllByQuery w (fileset_id args)) as [|p [|p' rv]]; try reflexivity.
  fold (normalized p). unfold ret at 1.
  destruct (rsplit_slash (normalized p)) as [[pp pn]|]; [|reflexivity].
  cbv zeta. unfold bind at 1. unfold ctx_err at 1. cbv beta iota.
  fold (log_err w ("Found prefix " ++ pp ++ " // " ++ pn
                     ++ " for fileset " ++ of_int (fileset_id args))).
  set (w1 := log_err w _).
  unfold bind at 1. unfold get at 1. cbv beta iota.
  change (disk w1) with (disk w). change (cwd w1) with (cwd w).
  destruct (exists_ (disk w) (cwd w) (str (of_string (symlink_target args))));
    cbn [negb]; [|reflexivity].
  unfold bind at 1.
  destruct (truthy (symlink_repo args)) as [repo|].
  - destruct (create_symlink repo (normalized p) (of_string (symlink_target args))
                (symlink_target args) w1) as [[e|[]] w2]; [reflexivity|].
    apply sql_walk_run.
  - unfold ret at 1. apply sql_walk_run.
Qed.

(** [create_symlink] touches the disk and the error stream only. *)
Lemma create_symlink_frame (repo prefix : string) (sp : Path) (target : string)
    (w w' : world) (r : exn + unit) :
  create_symlink repo prefix sp target w = (r, w') ->
  out w' = out w /\ cwd w' = cwd w
  /\ repositories w' = repositories w /\ filesets w' = filesets w.
Proof.
  rewrite create_symlink_run. cbv zeta.
  destruct (negb (exists_ (disk w) (cwd w) (os_path_join repo prefix))).
  - intros H; injection H as <- <-. now repeat split.
  - destruct (makedirs (disk w) (cwd w) _) as [d1 [e|]].
    + intros H; injection H as <- <-. now repeat split.
    + destruct (has_nul target || has_nul _);
        [intros H; injection H as <- <-; now repeat split|].
      destruct (OS.symlink d1 (cwd w) target _) as [d2 [e|]];
        intros H; injection H as <- <-; now repeat split.
Qed.

(** C2, as stated, fails: in a successful run the statement that retargets
    the pixels rows is written first, on its own; the transaction block is
    written after it and does not contain it. *)
Lemma C2_update_before_begin_counterexample :
  let r := sql sql_img_args example_world in
  fst r = inr tt
  /\ exists u t,
       out (snd r) = [u; t]
       /\ startswith u "UPDATE pixels" = true
       /\ contains "begin;" u = false
       /\ startswith t (LF ++ "begin;") = true
       /\ contains "UPDATE" t = false.
Proof.
  cbv zeta. split; [vm_compute; reflexivity|].
  eexists. eexists. split; [vm_compute; reflexivity|].
  repeat split; vm_compute; reflexivity.
Qed.

(** C2, amended: a successful run writes two texts.  The first is the
    [UPDATE] of the pixels rows of the images of the old fileset, with the
    name and path of the SetId target; the second is the block that starts
    with [begin;], calls [mkngff_fileset] with the old fileset id, the
    secret, the hash of the first managed repository, the new prefix and the
    rows as bracketed triples, one per walked entry, and ends with [commit;]. *)
Theorem C2_update_then_transaction :
  forall (args : Namespace) (w w' : world),
    sql args w = (inr tt, w') ->
    let sp := of_string (symlink_target args) in
    exists p pp pn listing fpath fname rows repo,
      findAllByQuery w (fileset_id args) = [p]
      /\ rsplit_slash (normalized p) = Some (pp, pn)
      /\ scandir (disk w') (cwd w') (str sp) = inr listing
      /\ sql_rows pp pn sp (walk sp listing) = (Some (fpath, fname), rows)
      /\ find (fun pair => snd pair) (repositories w) = Some (repo, true)
      /\ out w' =
         (out w ++
            [UPDATE_format fname fpath (fileset_id args);
             TEMPLATE_format (of_int (fileset_id args)) (secret args) repo
               (new_prefix_root pp pn) (join ("," ++ LF) rows)])%list.
Proof.
  intros args w w' H sp. rewrite sql_run in H.
  destruct (findAllByQuery w (fileset_id args)) as [|p [|p' rv]] eqn:Hq;
    try discriminate.
  cbv beta iota zeta in H. fold sp in H.
  destruct (rsplit_slash (normalized p)) as [[pp pn]|] eqn:Hsplit; [|discriminate].
  set (w1 := log_err w _) in H.
  destruct (negb (exists_ (disk w) (cwd w) (str sp))); [discriminate|].
  assert (Hframe : forall r w2,
             match truthy (symlink_repo args) with
             | Some repo => create_symlink repo (normalized p) sp (symlink_target args) w1
             | None => (inr tt, w1)
             end = (r, w2) ->
             out w2 = out w /\ repositories w2 = repositories w).
  { intros r w2. destruct (truthy (symlink_repo args)).
    - intros E. apply create_symlink_frame in E. now destruct E as (-> & _ & -> & _).
    - intros E; injection E as <- <-. now split. }
  destruct (match truthy (symlink_repo args) with
            | Some repo => create_symlink repo (normalized p) sp (symlink_target args) w1
            | None => (inr tt, w1)
            end) as [[e|[]] w2] eqn:E; [discriminate|].
  destruct (Hframe _ _ eq_refl) as [Ho Hr].
  destruct (scandir (disk w2) (cwd w2) (str sp)) as [e|listing] eqn:Hscan; [discriminate|].
  destruct (sql_rows pp pn sp (walk sp listing)) as [[[fpath fname]|] rows] eqn:Hrows;
    [|discriminate].
  destruct (find (fun pair => snd pair) (repositories w2)) as [[desc m]|] eqn:Hfind;
    [|discriminate].
  injection H as <-.
  exists p, pp, pn, listing, fpath, fname, rows, desc.
  split; [reflexivity|]. split; [exact Hsplit|].
  split; [exact Hscan|]. split; [exact Hrows|]. split.
  - rewrite <- Hr, Hfind. apply find_some in Hfind. destruct Hfind as [_ Hm].
    simpl in Hm. now rewrite Hm.
  - cbn [log_out out]. rewrite Ho, <- app_assoc. reflexivity.
Qed.

(** The image with metadata, on the example server. *)
Lemma C2_update_then_transaction_witness :
  let w' := snd (sql sql_img_args example_world) in
  sql sql_img_args example_world = (inr tt, w')
  /\ exists p pp pn listing fpath fname rows repo,
       findAllByQuery example_world (fileset_id sql_img_args) = [p]
       /\ rsplit_slash (normalized p) = Some (pp, pn)
       /\ scandir (disk w') (cwd w') (str (of_string (symlink_target sql_img_args)))
          = inr listing
       /\ sql_rows pp pn (of_string (symlink_target sql_img_args))
            (walk (of_string (symlink_target sql_img_args)) listing)
          = (Some (fpath, fname), rows)
       /\ find (fun pair => snd pair) (repositories example_world) = Some (repo, true)
       /\ out w' =
          (out example_world ++
             [UPDATE_format fname fpath (fileset_id sql_img_args);
              TEMPLATE_format (of_int (fileset_id sql_img_args)) (secret sql_img_args) repo
                (new_prefix_root pp pn) (join ("," ++ LF) rows)])%list.
Proof.
  cbv zeta. split; [vm_compute; reflexivity|].
  apply (C2_update_then_transaction sql_img_args example_world).
  vm_compute; reflexivity.
Defined.

(** Without a descriptor name among the walked entries the loop ends
    without a target. *)
Lemma sql_rows_no_descriptor (pp pn : string) (sp : Path) (es : list entry) :
  find is_descriptor es = None -> fst (sql_rows pp pn sp es) = None.
Proof.
  intros H. rewrite sql_rows_target.
  assert (Hall : forall e, In e es -> is_zattrs e = false /\ is_ome_xml e = false).
  { intros e He. pose proof (find_none _ _ H e He) as Hd.
    unfold is_descriptor in Hd. now apply orb_false_iff in Hd. }
  destruct (find is_ome_xml (rev es)) as [e|] eqn:F1.
  - apply find_some in F1. destruct F1 as [Hin Hx].
    apply in_rev in Hin. destruct (Hall e Hin). congruence.
  - destruct (find is_zattrs es) as [e|] eqn:F2; [|reflexivity].
    apply find_some in F2. destruct F2 as [Hin Hx].
    destruct (Hall e Hin). congruence.
Qed.

(** C6, the run that breaks it: the scenario container has no entry named
    [.zattrs] or [METADATA.ome.xml], and [sql] is asked to create the
    symlink as well.  The run ends with the [TypeError] of reading the
    target that was never set and has written nothing to the output, but
    the mirror directory and the link, which were not on disk before, are
    there by then: the symlink is created before the walk finds out that
    there is no descriptor. *)
Theorem C6_symlink_left_behind_before_abort :
  let r := sql sql_root_symlink_args example_world in
  find is_descriptor (walk scenario_root scenario_tree) = None
  /\ scandir (disk (snd r)) (cwd (snd r)) "/data/root" = inr scenario_tree
  /\ fst r = inl TypeError
  /\ out (snd r) = []
  /\ lookup (disk example_world) ["repo"; "user_2"; "xyz_mkngff"] = None
  /\ lookup (disk (snd r)) ["repo"; "user_2"; "xyz_mkngff"; "root"]
       = Some (ILink "/data/root")
  /\ disk (snd r) <> disk example_world.
Proof.
  cbv zeta. repeat split; try (vm_compute; reflexivity).
  vm_compute. discriminate.
Qed.

(** X17: when what is listed under the target has no entry named
    [.zattrs] or [METADATA.ome.xml], [sql] ends with an exception and has
    written nothing to the output; it has left the disk as it was when no
    symlink repository was given. *)
Theorem sql_without_descriptor_writes_nothing :
  forall (args : Namespace) (w w' : world) (r : exn + unit),
    sql args w = (r, w') ->
    (forall listing,
        scandir (disk w') (cwd w') (str (of_string (symlink_target args))) = inr listing ->
        find is_descriptor (walk (of_string (symlink_target args)) listing) = None) ->
    (exists e, r = inl e)
    /\ out w' = out w
    /\ (truthy (symlink_repo args) = None -> disk w' = disk w).
Proof.
  intros args w w' r H Hno. set (sp := of_string (symlink_target args)) in *.
  rewrite sql_run in H.
  destruct (findAllByQuery w (fileset_id args)) as [|p [|p' rv]];
    try (injection H as <- <-; split; [eexists; reflexivity | now split]).
  cbv beta iota zeta in H. fold sp in H.
  destruct (rsplit_slash (normalized p)) as [[pp pn]|];
    [|injection H as <- <-; split; [eexists; reflexivity | now split]].
  set (w1 := log_err w _) in H.
  destruct (negb (exists_ (disk w) (cwd w) (str sp)));
    [injection H as <- <-; split; [eexists; reflexivity | now split]|].
  assert (Hframe : forall r2 w2,
             match truthy (symlink_repo args) with
             | Some repo => create_symlink repo (normalized p) sp (symlink_target args) w1
             | None => (inr tt, w1)
             end = (r2, w2) ->
             out w2 = out w /\ (truthy (symlink_repo args) = None -> disk w2 = disk w)).
  { intros r2 w2. destruct (truthy (symlink_repo args)).
    - intros E. apply create_symlink_frame in E. destruct E as (-> & _).
      split; [reflexivity | discriminate].
    - intros E; injection E as <- <-. now split. }
  destruct (match truthy (symlink_repo args) with
            | Some repo => create_symlink repo (normalized p) sp (symlink_target args) w1
            | None => (inr tt, w1)
            end) as [[e|[]] w2] eqn:E;
    destruct (Hframe _ _ eq_refl) as [Ho Hd].
  { injection H as <- <-. split; [eexists; reflexivity | now split]. }
  destruct (scandir (disk w2) (cwd w2) (str sp)) as [e|listing] eqn:Hscan.
  { injection H as <- <-. split; [eexists; reflexivity | now split]. }
  destruct (sql_rows pp pn sp (walk sp listing)) as [[[fpath fname]|] rows] eqn:Hrows.
  - exfalso.
    assert (Hw : disk w' = disk w2 /\ cwd w' = cwd w2).
    { destruct (find (fun pair => snd pair) (repositories w2)) as [[desc m]|];
        injection H as <- <-; now split. }
    destruct Hw as [Hw1 Hw2]. rewrite Hw1, Hw2 in Hno.
    pose proof (sql_rows_no_descriptor pp pn sp _ (Hno _ Hscan)) as Hn.
    rewrite Hrows in Hn. discriminate.
  - injection H as <- <-. split; [eexists; reflexivity | now split].
Qed.

(** The scenario container without symlink repository: nothing is written
    and nothing is created. *)
Lemma sql_without_descriptor_witness :
  let args := mkArgs "TBD" None None 1 "/data/root" in
  let res := sql args example_world in
  (forall listing,
      scandir (disk (snd res)) (cwd (snd res)) (str (of_string (symlink_target args)))
        = inr listing ->
      find is_descriptor (walk (of_string (symlink_target args)) listing) = None)
  /\ (exists e, fst res = inl e)
  /\ out (snd res) = out example_world
  /\ (truthy (symlink_repo args) = None -> disk (snd res) = disk example_world).
Proof.
  cbv zeta.
  assert (Hno : forall listing,
             scandir (disk (snd (sql (mkArgs "TBD" None None 1 "/data/root") example_world)))
                     (cwd (snd (sql (mkArgs "TBD" None None 1 "/data/root") example_world)))
                     (str (of_string "/data/root")) = inr listing ->
             find is_descriptor (walk (of_string "/data/root") listing) = None).
  { intros listing H. vm_compute in H. injection H as <-. vm_compute. reflexivity. }
  split; [exact Hno|].
  apply (sql_without_descriptor_writes_nothing
           (mkArgs "TBD" None None 1 "/data/root") example_world
           (snd (sql (mkArgs "TBD" None None 1 "/data/root") example_world))
           (fst (sql (mkArgs "TBD" None None 1 "/data/root") example_world)));
    [vm_compute; reflexivity | exact Hno].
Defined.

(** What a failing run can have written: nothing, or the [UPDATE] alone,
    which happens when the managed repository is looked up for the second
    text and none is found. *)
Lemma sql_failure_output (args : Namespace) (w w' : world) (e : exn) :
  sql args w = (inl e, w') ->
  out w' = out w
  \/ (exists fname fpath,
        out w' = (out w ++ [UPDATE_format fname fpath (fileset_id args)])%list
        /\ find (fun pair => snd pair) (repositories w) = None
        /\ exists msg, e = Die 402 msg).
Proof.
  intros H. rewrite sql_run in H.
  destruct (findAllByQuery w (fileset_id args)) as [|p [|p' rv]];
    try (injection H as <- <-; now left).
  cbv beta iota zeta in H.
  destruct (rsplit_slash (normalized p)) as [[pp pn]|];
    [|injection H as <- <-; now left].
  set (sp := of_string (symlink_target args)) in H.
  set (w1 := log_err w _) in H.
  destruct (negb (exists_ (disk w) (cwd w) (str sp)));
    [injection H as <- <-; now left|].
  assert (Hframe : forall r2 w2,
             match truthy (symlink_repo args) with
             | Some repo => create_symlink repo (normalized p) sp (symlink_target args) w1
             | None => (inr tt, w1)
             end = (r2, w2) ->
             out w2 = out w /\ repositories w2 = repositories w).
  { intros r2 w2. destruct (truthy (symlink_repo args)).
    - intros E. apply create_symlink_frame in E. now destruct E as (-> & _ & -> & _).
    - intros E; injection E as <- <-. now split. }
  destruct (match truthy (symlink_repo args) with
            | Some repo => create_symlink repo (normalized p) sp (symlink_target args) w1
            | None => (inr tt, w1)
            end) as [[e2|[]] w2] eqn:E;
    destruct (Hframe _ _ eq_refl) as [Ho Hr].
  { injection H as <- <-. now left. }
  destruct (scandir (disk w2) (cwd w2) (str sp)) as [e2|listing].
  { injection H as <- <-. now left. }
  destruct (sql_rows pp pn sp (walk sp listing)) as [[[fpath fname]|] rows];
    [|injection H as <- <-; now left].
  destruct (find (fun pair => snd pair) (repositories w2)) as [[desc m]|] eqn:Hfind;
    [discriminate|].
  injection H as <- <-. right. exists fname, fpath.
  split; [cbn [log_out log_err out]; now rewrite Ho|].
  split; [now rewrite <- Hr | eexists; reflexivity].
Qed.

(** C7, the run that breaks it: the image has its metadata, the server has
    no managed repository.  [sql] dies with code 402 after the [UPDATE] has
    been written, and the transaction block never follows. *)
Theorem C7_update_written_before_repository_failure :
  let r := sql sql_img_args unmanaged_world in
  fst r = inl (Die 402 "Failed to find managed repository (count=1)")
  /\ out (snd r) =
     ["UPDATE pixels SET name = 'METADATA.ome.xml', path = 'user_2/xyz_mkngff/img.zarr/OME' where image in (select id from Image where fileset = 1);"].
Proof. cbv zeta. split; vm_compute; reflexivity. Qed.

(* ===================================================================== *)
(** ** The [symlink] command *)
(* ===================================================================== *)


(** C9, the run that breaks it: [symlink] for a target that is not on disk.
    Nothing checks the target; the mirror directory is made and a link to
    the missing path is put into it, and the command returns normally. *)
Theorem C9_symlink_command_links_missing_target :
  let r := symlink symlink_missing_args example_world in
  exists_ (disk example_world) (cwd example_world) "/data/missing.zarr" = false
  /\ fst r = inr tt
  /\ lookup (disk example_world) ["repo"; "user_2"; "xyz_mkngff"] = None
  /\ lookup (disk (snd r)) ["repo"; "user_2"; "xyz_mkngff"]
     = Some (IDir [("missing.zarr", ILink "/data/missing.zarr")]).
Proof. cbv zeta. repeat split; vm_compute; reflexivity. Qed.

(** The same arguments given to [sql] stop at the check. *)
Example sql_checks_missing_target :
  let r := sql symlink_missing_args example_world in
  fst r = inl (Die 401 "Symlink target does not exist: /data/missing.zarr")
  /\ disk (snd r) = disk example_world
  /\ out (snd r) = [].
Proof. cbv zeta. repeat split; vm_compute; reflexivity. Qed.

(* ===================================================================== *)
(** ** More about the walk *)
(* ===================================================================== *)

Lemma at_place_incl (rel : list string) (t : node) (cs cs2 : list node) :
  incl cs cs2 -> at_place cs rel t -> at_place cs2 rel t.
Proof.
  intros Hi. destruct rel as [|n [|r rel]]; simpl; [tauto| |].
  - intros [Hin Hn]. split; [now apply Hi | exact Hn].
  - intros [cs' [Hin H]]. exists cs'. split; [now apply Hi | exact H].
Qed.

Lemma at_place_nonempty (cs : list node) (rel : list string) (t : node) :
  at_place cs rel t -> rel <> [].
Proof. destruct rel; [intros [] | discriminate]. Qed.

(** What one round yields, as entries of the one-entry listing [[t]]. *)
Lemma walk_entry_sound (t : node) :
  forall (path : Path) (e : entry),
    In e (walk_entry path t) ->
    exists rel t',
      at_place [t] rel t' /\ yields t' = true
      /\ e = (below path (removelast rel), node_name t', mime_of t').
Proof.
  induction t as [n|n cs IH|n] using node_nested_ind; intros path e He;
    rewrite walk_entry_eq in He.
  - destruct He as [<-|[]]. exists [n], (File n).
    simpl. rewrite below_nil. repeat split; auto.
  - destruct (is_array cs || is_group cs) eqn:Hm; [|destruct He].
    destruct He as [<-|He].
    + exists [n], (Dir n cs). simpl. rewrite below_nil. repeat split; auto.
    + destruct (is_array cs) eqn:Ha; simpl in He; [destruct He|].
      unfold walk in He. apply in_flat_map in He. destruct He as [c [Hc He]].
      rewrite Forall_forall in IH.
      destruct (IH c Hc _ _ He) as (rel & t' & Hat & Hy & ->).
      assert (Hne := at_place_nonempty _ _ _ Hat).
      exists (n :: rel), t'. destruct rel as [|r rel]; [contradiction|].
      split; [|split; [exact Hy|]].
      * change (at_place [Dir n cs] (n :: r :: rel) t')
          with (exists cs', In (Dir n cs') [Dir n cs] /\ descends cs' = true
                            /\ at_place cs' (r :: rel) t').
        exists cs. split; [now left|]. split.
        -- unfold descends. rewrite Ha. simpl in Hm. now rewrite Hm.
        -- apply (at_place_incl _ _ [c]); [|exact Hat].
           intros x [<-|[]]. exact Hc.
      * change (removelast (n :: r :: rel)) with (n :: removelast (r :: rel)).
        now rewrite below_make_child.
  - destruct He as [<-|[]]. exists [n], (Dangling n).
    simpl. rewrite below_nil. repeat split; auto.
Qed.

(** X1: everything [walk] yields is an entry of the listed tree, found
    below directories that are groups and not arrays; it is yielded with the
    directory that holds it and its own name; directories come with the
    type [Directory] and have a marker, everything else comes with
    [application/octet-stream]. *)
Theorem walk_yields_entries_of_the_tree :
  forall (path : Path) (ts : list node) (e : entry),
    In e (walk path ts) ->
    exists rel t,
      at_place ts rel t /\ yields t = true
      /\ e = (below path (removelast rel), node_name t, mime_of t).
Proof.
  intros path ts e He. unfold walk in He. apply in_flat_map in He.
  destruct He as [c [Hc He]].
  destruct (walk_entry_sound c path e He) as (rel & t & Hat & Hy & ->).
  exists rel, t. split; [|now split].
  apply (at_place_incl _ _ [c]); [|exact Hat].
  intros x [<-|[]]. exact Hc.
Qed.

Lemma walk_yields_entries_witness :
  In (below scenario_root ["g"], "arr", "Directory") (walk scenario_root scenario_tree)
  /\ exists rel t,
       at_place scenario_tree rel t /\ yields t = true
       /\ (below scenario_root ["g"], "arr", "Directory")
          = (below scenario_root (removelast rel), node_name t, mime_of t).
Proof.
  assert (H : In (below scenario_root ["g"], "arr", "Directory")
                 (walk scenario_root scenario_tree)).
  { vm_compute. right. right. right. now left. }
  split; [exact H|].
  exact (walk_yields_entries_of_the_tree scenario_root scenario_tree _ H).
Defined.

(** X2: with unique names in every directory, each place of the tree has
    exactly one entry in the walk when it is listed, and none otherwise: the
    walk has no duplicates and misses nothing that it is to list. *)
Theorem walk_lists_each_place_once :
  forall (rel : list string) (path : Path) (ts : list node),
    unique_listing ts = true ->
    count_at path rel (walk path ts) = if listed ts rel then 1 else 0.
Proof.
  induction rel as [|n rel IH]; intros path ts Hu; [apply count_at_nil_rel|].
  assert (Hn : nodupb (map node_name ts) = true).
  { unfold unique_listing in Hu. now apply andb_true_iff in Hu. }
  rewrite count_walk_cons by exact Hn. unfold listed.
  change (node_at ts (n :: rel))
    with (match find_child ts n with
          | None => None
          | Some t => match rel with
                      | [] => Some t
                      | _ :: _ => match t with
                                  | Dir _ cs' => node_at cs' rel
                                  | _ => None
                                  end
                      end
          end).
  destruct (find_child ts n) as [t|] eqn:Hf; [|reflexivity].
  destruct rel as [|r rel].
  - simpl reached. rewrite andb_true_r. destruct t; reflexivity.
  - destruct t as [m|m cs|m]; try reflexivity.
    destruct (unique_listing_child ts n m cs Hu Hf) as [Hu0 _].
    change (reached ts (n :: r :: rel))
      with (match find_child ts n with
            | Some (Dir _ cs') => descends cs' && reached cs' (r :: rel)
            | _ => false
            end).
    rewrite Hf. specialize (IH (make_child path n) cs Hu0). unfold listed in IH.
    destruct (descends cs); cbn [andb].
    + exact IH.
    + destruct (node_at cs (r :: rel)) as [t'|]; [rewrite andb_false_r|]; reflexivity.
Qed.

Lemma walk_lists_each_place_once_witness :
  unique_listing scenario_tree = true
  /\ count_at scenario_root ["g"; ".zgroup"] (walk scenario_root scenario_tree)
     = if listed scenario_tree ["g"; ".zgroup"] then 1 else 0.
Proof.
  split; [reflexivity|].
  apply (walk_lists_each_place_once ["g"; ".zgroup"] scenario_root scenario_tree).
  reflexivity.
Defined.

(* ===================================================================== *)
(** ** More about the rows *)
(* ===================================================================== *)

Lemma find_all_false {A} (f : A -> bool) (l : list A) :
  (forall x, In x l -> f x = false) -> find f l = None.
Proof.
  induction l as [|a l IH]; intros H; [reflexivity|].
  simpl. rewrite (H a (or_introl eq_refl)). apply IH. intros; apply H; now right.
Qed.

(** X3: the loop of [sql] ends with a target exactly when some walked entry
    is named [.zattrs] or [METADATA.ome.xml]; the target then has one of
    these two names, and the row with the target's path (a slash added) and
    name is among the rows, so the pixels rows are pointed at a file that is
    registered. *)
Theorem setid_target_is_a_registered_descriptor :
  forall (prefix_path prefix_name : string) (symlink_path : Path) (es : list entry),
    (fst (sql_rows prefix_path prefix_name symlink_path es) = None
     <-> find is_descriptor es = None)
    /\ forall fpath fname,
         fst (sql_rows prefix_path prefix_name symlink_path es) = Some (fpath, fname) ->
         (fname = ".zattrs" \/ fname = "METADATA.ome.xml")
         /\ exists e,
              In e es /\ snd (fst e) = fname
              /\ In (ROW_format (fpath ++ "/") fname (snd e))
                    (snd (sql_rows prefix_path prefix_name symlink_path es)).
Proof.
  intros pp pn sp es. split.
  - split; [|apply sql_rows_no_descriptor].
    rewrite sql_rows_target. intros H.
    destruct (find is_ome_xml (rev es)) as [e|] eqn:F1; [discriminate|].
    destruct (find is_zattrs es) as [e|] eqn:F2; [discriminate|].
    apply find_all_false. intros e He. unfold is_descriptor.
    rewrite (find_none _ _ F2 e He).
    apply in_rev in He. now rewrite (find_none _ _ F1 e He).
  - intros fpath fname H. rewrite sql_rows_target in H.
    assert (Hrow : forall e, In e es ->
                     In (ROW_format (row_full_path pp pn sp e ++ "/") (snd (fst e)) (snd e))
                        (snd (sql_rows pp pn sp es))).
    { intros e He. rewrite sql_rows_map. now apply (in_map (row_of pp pn sp)). }
    destruct (find is_ome_xml (rev es)) as [e|] eqn:F1.
    + apply find_some in F1. destruct F1 as [Hin Hx]. apply in_rev in Hin.
      injection H as <- <-. unfold is_ome_xml in Hx. apply String.eqb_eq in Hx.
      split; [now right|]. exists e. repeat split; auto.
    + destruct (find is_zattrs es) as [e|] eqn:F2; [|discriminate].
      apply find_some in F2. destruct F2 as [Hin Hx].
      injection H as <- <-. unfold is_zattrs in Hx. apply String.eqb_eq in Hx.
      split; [now left|]. exists e. repeat split; auto.
Qed.

Lemma setid_target_witness :
  fst (sql_rows "/base" "xyz" ome_root (walk ome_root ome_tree))
    = Some ("/base/xyz_mkngff/img.zarr/OME", "METADATA.ome.xml")
  /\ ("METADATA.ome.xml" = ".zattrs" \/ "METADATA.ome.xml" = "METADATA.ome.xml")
  /\ exists e,
       In e (walk ome_root ome_tree) /\ snd (fst e) = "METADATA.ome.xml"
       /\ In (ROW_format ("/base/xyz_mkngff/img.zarr/OME" ++ "/") "METADATA.ome.xml" (snd e))
             (snd (sql_rows "/base" "xyz" ome_root (walk ome_root ome_tree))).
Proof.
  split; [reflexivity|].
  apply (proj2 (setid_target_is_a_registered_descriptor "/base" "xyz" ome_root
                  (walk ome_root ome_tree))).
  reflexivity.
Defined.

(** Nothing to replace: the string stays. *)
Lemma replace_from_absent (old new s : string) :
  contains old s = false -> replace_from old new 0 s = s.
Proof.
  induction s as [|c s IH]; intros H; [reflexivity|].
  unfold contains in H; fold contains in H. apply orb_false_iff in H.
  destruct H as [Hp Hc]. unfold replace_from; fold replace_from.
  rewrite Hp. f_equal. now apply IH.
Qed.

Lemma join_app (sep : string) (l1 l2 : list string) :
  l1 <> [] -> l2 <> [] ->
  join sep (l1 ++ l2) = join sep l1 ++ sep ++ join sep l2.
Proof.
  unfold join. intros H1 H2. induction l1 as [|x l1 IH]; [contradiction|].
  destruct l1 as [|y l1].
  - destruct l2; [contradiction | reflexivity].
  - change (String.concat sep ((x :: y :: l1) ++ l2))
      with (x ++ sep ++ String.concat sep ((y :: l1) ++ l2)).
    rewrite IH by discriminate.
    change (String.concat sep (x :: y :: l1))
      with (x ++ sep ++ String.concat sep (y :: l1)).
    now rewrite !append_assoc.
Qed.

Lemma startswith_slash_cons (s : string) : startswith (String "/" s) "/" = true.
Proof.
  unfold startswith. simpl.
  destruct (ascii_dec "/" "/") as [_|Hn]; [now destruct s | now elim Hn].
Qed.

Lemma str_with_parts (a : string) (l : list string) :
  l <> [] -> str (mkPath a l) = a ++ join "/" l.
Proof. intros H. unfold str; simpl. destruct a, l; try reflexivity; contradiction. Qed.

(** X4: the rewrite does what its comment says when the string of the
    container's parent does not come back further down: for a container
    [<ps>/<n>] with a parent of at least one component, the directory [l]
    below the container is rewritten to [n/l], relative to the parent. *)
Theorem shorten_strips_the_parent :
  forall (target : string) (ps : list string) (n : string) (l : list string),
    let symlink_path := of_string target in
    parts symlink_path = (ps ++ [n])%list ->
    ps <> [] ->
    contains (str (parent symlink_path)) ("/" ++ join "/" (n :: l)) = false ->
    shorten symlink_path (below symlink_path l) = join "/" (n :: l).
Proof.
  intros target ps n l sp Hparts Hps Habs.
  assert (Hne : str (parent sp) <> "") by apply str_parent_of_string_nonempty.
  assert (Hpar : str (parent sp) = anchor sp ++ join "/" ps).
  { unfold parent. rewrite Hparts, removelast_last. now apply str_with_parts. }
  assert (Hrow : str (below sp l) = str (parent sp) ++ "/" ++ join "/" (n :: l)).
  { unfold below. rewrite Hparts, <- app_assoc. simpl app.
    rewrite str_with_parts by (destruct ps; discriminate).
    rewrite join_app, Hpar, append_assoc by (assumption || discriminate).
    reflexivity. }
  unfold shorten. rewrite Hrow, replace_leading by exact Hne.
  unfold replace. destruct (String.eqb_spec (str (parent sp)) ""); [contradiction|].
  rewrite replace_from_absent by exact Habs.
  change ("/" ++ join "/" (n :: l)) with (String "/" (join "/" (n :: l))).
  now rewrite startswith_slash_cons.
Qed.

Lemma shorten_strips_the_parent_witness :
  parts (of_string "/data/root") = (["data"] ++ ["root"])%list
  /\ ["data"] <> []
  /\ contains (str (parent (of_string "/data/root"))) ("/" ++ join "/" ("root" :: ["g"; "arr"]))
     = false
  /\ shorten (of_string "/data/root") (below (of_string "/data/root") ["g"; "arr"])
     = join "/" ("root" :: ["g"; "arr"]).
Proof.
  split; [reflexivity|]. split; [discriminate|]. split; [reflexivity|].
  apply (shorten_strips_the_parent "/data/root" ["data"] "root" ["g"; "arr"]);
    [reflexivity | discriminate | reflexivity].
Defined.

Lemma contains_tail (old : string) (c : ascii) (s : string) :
  contains old (String c s) = false -> contains old s = false.
Proof. unfold contains; fold contains. intros H. now apply orb_false_iff in H. Qed.

(** Deleting a one-character string leaves none of it. *)
Lemma replace_from_single (c : ascii) (s : string) :
  contains (String c "") (replace_from (String c "") "" 0 s) = false.
Proof.
  induction s as [|a s IH]; [reflexivity|].
  unfold replace_from; fold replace_from.
  destruct (String.prefix (String c "") (String a s)) eqn:P.
  - exact IH.
  - unfold contains; fold contains. rewrite IH, orb_false_r.
    simpl in P |- *. destruct (ascii_dec c a); [|reflexivity].
    now destruct s.
Qed.

(** X5: when the string of the container's parent is a single character,
    which is the case for a container directly under [/] (the parent is [/])
    and for one given by a bare name (the parent is [.]), the rewrite
    deletes that character everywhere: no rewritten directory contains a
    slash, respectively a dot. *)
Theorem shorten_flattens_under_one_character_parent :
  forall (target : string) (row_path : Path),
    let symlink_path := of_string target in
    String.length (str (parent symlink_path)) = 1 ->
    contains (str (parent symlink_path)) (shorten symlink_path row_path) = false.
Proof.
  intros target row_path sp Hlen. unfold shorten.
  destruct (str (parent sp)) as [|c [|c' old]] eqn:E; try discriminate.
  unfold replace. simpl String.eqb. cbv iota.
  pose proof (replace_from_single c (str row_path)) as H.
  destruct (startswith (replace_from (String c "") "" 0 (str row_path)) "/"); [|exact H].
  destruct (replace_from (String c "") "" 0 (str row_path)) as [|a r]; [exact H|].
  simpl drop. now apply contains_tail in H.
Qed.

Lemma shorten_flattens_witness :
  String.length (str (parent (of_string "/img.zarr"))) = 1
  /\ contains (str (parent (of_string "/img.zarr")))
       (shorten (of_string "/img.zarr") (of_string "/img.zarr/g/arr")) = false.
Proof.
  split; [reflexivity|].
  apply (shorten_flattens_under_one_character_parent "/img.zarr"
           (of_string "/img.zarr/g/arr")).
  reflexivity.
Defined.

(* ===================================================================== *)
(** ** The two queries *)
(* ===================================================================== *)

Lemma drop_last_slash (p : string) :
  endswith_slash p = true -> drop_last p ++ "/" = p.
Proof.
  induction p as [|c p IH]; [discriminate|].
  destruct p as [|c' p].
  - simpl. intros H. apply Ascii.eqb_eq in H. now subst c.
  - intros H. change (drop_last (String c (String c' p)))
      with (String c (drop_last (String c' p))).
    simpl append. f_equal. apply IH. exact H.
Qed.

(** X6: with exactly one fileset row [get_prefix] returns the stored
    template prefix with one trailing slash taken off, so that the result
    and a slash give the stored prefix back (a prefix without trailing slash
    is returned as it is), and the world is as before.  With any other
    number of rows it dies with code 400: the message goes to the error
    stream, and nothing else changes. *)
Theorem get_prefix_drops_one_trailing_slash :
  forall (args : Namespace) (w : world),
    (forall p, findAllByQuery w (fileset_id args) = [p] ->
       exists r, get_prefix args w = (inr r, w)
                 /\ if endswith_slash p then r ++ "/" = p else r = p)
    /\ (List.length (findAllByQuery w (fileset_id args)) <> 1 ->
          exists msg, get_prefix args w = (inl (Die 400 msg), log_err w msg)).
Proof.
  intros args w. unfold get_prefix, bind, get, ret, ctx_die.
  destruct (findAllByQuery w (fileset_id args)) as [|p [|p' rv]]; cbv beta iota.
  - split; [discriminate|]. intros _. eexists; reflexivity.
  - split; [|intros H; now elim H].
    intros p0 H. injection H as <-. eexists. split; [reflexivity|].
    destruct (endswith_slash p) eqn:E; [now apply drop_last_slash | reflexivity].
  - split; [discriminate|]. intros _. eexists; reflexivity.
Qed.

Lemma get_prefix_witness :
  findAllByQuery example_world (fileset_id sql_img_args) = ["user_2/xyz/"]
  /\ exists r, get_prefix sql_img_args example_world = (inr r, example_world)
               /\ if endswith_slash "user_2/xyz/" then r ++ "/" = "user_2/xyz/"
                  else r = "user_2/xyz/".
Proof.
  split; [reflexivity|].
  apply (proj1 (get_prefix_drops_one_trailing_slash sql_img_args example_world)).
  reflexivity.
Defined.

Lemma find_split {A} (f : A -> bool) (l : list A) (x : A) :
  find f l = Some x ->
  exists l1 l2, l = (l1 ++ x :: l2)%list
                /\ forallb (fun y => negb (f y)) l1 = true /\ f x = true.
Proof.
  induction l as [|a l IH]; [discriminate|]. simpl.
  destruct (f a) eqn:E.
  - intros H; injection H as <-. exists [], l. now repeat split.
  - intros H. destruct (IH H) as (l1 & l2 & -> & H1 & H2).
    exists (a :: l1), l2. simpl. rewrite E. now repeat split.
Qed.

Lemma find_none_forallb {A} (f : A -> bool) (l : list A) :
  find f l = None <-> forallb (fun y => negb (f y)) l = true.
Proof.
  induction l as [|a l IH]; simpl; [tauto|].
  destruct (f a); simpl; [split; discriminate | exact IH].
Qed.

(** X7: what [get_uuid] returns is the hash of a managed repository before
    which the server lists unmanaged ones only, and the world is then as
    before.  It dies exactly when no repository is managed, always with
    code 402: the message goes to the error stream, and nothing else
    changes. *)
Theorem get_uuid_returns_first_managed :
  forall (args : Namespace) (w : world),
    (forall desc, fst (get_uuid args w) = inr desc ->
       snd (get_uuid args w) = w
       /\ exists l1 l2,
            repositories w = (l1 ++ (desc, true) :: l2)%list
            /\ forallb (fun r => negb (snd r)) l1 = true)
    /\ ((exists msg, get_uuid args w = (inl (Die 402 msg), log_err w msg))
        <-> forallb (fun r => negb (snd r)) (repositories w) = true)
    /\ (forall e, fst (get_uuid args w) = inl e ->
          exists msg, e = Die 402 msg /\ snd (get_uuid args w) = log_err w msg).
Proof.
  intros args w. unfold get_uuid, bind, get, ret, ctx_die. cbv beta.
  destruct (find (fun pair => snd pair) (repositories w)) as [[d m]|] eqn:F;
    cbv beta iota; cbn [fst snd].
  - split; [|split].
    + intros desc H. injection H as <-. split; [reflexivity|].
      destruct (find_split _ _ _ F) as (l1 & l2 & E & H1 & H2). simpl in H2. subst m.
      now exists l1, l2.
    + split; [intros [msg H]; discriminate|].
      intros H.
      pose proof (proj2 (find_none_forallb (fun pair : string * bool => snd pair)
                           (repositories w)) H) as H'.
      rewrite F in H'. discriminate.
    + discriminate.
  - split; [discriminate|]. split.
    + split; [intros _ | intros _; eexists; reflexivity].
      exact (proj1 (find_none_forallb (fun pair : string * bool => snd pair)
                      (repositories w)) F).
    + intros e H. injection H as <-. eexists; split; reflexivity.
Qed.

Lemma get_uuid_witness :
  fst (get_uuid sql_img_args example_world) = inr "cafe-d00d"
  /\ snd (get_uuid sql_img_args example_world) = example_world
  /\ exists l1 l2,
       repositories example_world = (l1 ++ ("cafe-d00d", true) :: l2)%list
       /\ forallb (fun r => negb (snd r)) l1 = true.
Proof.
  split; [reflexivity|].
  apply (proj1 (get_uuid_returns_first_managed sql_img_args example_world)).
  reflexivity.
Defined.

(* ===================================================================== *)
(** ** The first checks of the commands *)
(* ===================================================================== *)

(** [symlink], step by step. *)
Lemma symlink_run (args : Namespace) (w : world) :
  symlink args w =
  match findAllByQuery w (fileset_id args) with
  | [p] =>
      match symlink_repo args with
      | Some repo => create_symlink repo (normalized p)
                       (of_string (symlink_target args)) (symlink_target args) w
      | None => (inl TypeError, w)
      end
  | rv =>
      (inl (Die 400 ("Found wrong number of filesets: "
                       ++ of_int (Z.of_nat (List.length rv)))),
       log_err w ("Found wrong number of filesets: "
                    ++ of_int (Z.of_nat (List.length rv))))
  end.
Proof.
  unfold symlink, get_prefix, bind at 1 2. unfold get at 1.
  destruct (findAllByQuery w (fileset_id args)) as [|p [|p' rv]]; try reflexivity.
  fold (normalized p). unfold ret at 1.
  destruct (symlink_repo args); reflexivity.
Qed.

(** X8: when the fileset query does not return exactly one row, both
    commands die with code 400 and the same message.  The message is
    written to the error stream; the output, the disk and everything else
    are as before. *)
Theorem commands_die_on_fileset_count :
  forall (args : Namespace) (w : world),
    List.length (findAllByQuery w (fileset_id args)) <> 1 ->
    exists msg,
      sql args w = (inl (Die 400 msg), log_err w msg)
      /\ symlink args w = (inl (Die 400 msg), log_err w msg).
Proof.
  intros args w H. rewrite sql_run, symlink_run.
  destruct (findAllByQuery w (fileset_id args)) as [|p [|p' rv]];
    [| now elim H |]; eexists; split; reflexivity.
Qed.

Lemma commands_die_on_fileset_count_witness :
  List.length (findAllByQuery example_world 7) <> 1
  /\ exists msg,
       sql (mkArgs "TBD" None None 7 "/data/img.zarr") example_world
         = (inl (Die 400 msg), log_err example_world msg)
       /\ symlink (mkArgs "TBD" None None 7 "/data/img.zarr") example_world
         = (inl (Die 400 msg), log_err example_world msg).
Proof.
  split; [discriminate|].
  apply (commands_die_on_fileset_count
           (mkArgs "TBD" None None 7 "/data/img.zarr") example_world).
  discriminate.
Defined.

Lemma prefix_nil (s : string) : String.prefix "" s = true.
Proof. now destruct s. Qed.

Lemma rsplit_slash_none (s : string) :
  contains "/" s = false -> rsplit_slash s = None.
Proof.
  induction s as [|c s IH]; [reflexivity|].
  unfold contains; fold contains. intros H. apply orb_false_iff in H.
  destruct H as [Hp Hc]. simpl. rewrite (IH Hc).
  destruct (Ascii.eqb_spec c "/") as [->|]; [|reflexivity].
  simpl in Hp. destruct (ascii_dec "/" "/") as [_|Hn]; [|now elim Hn].
  now rewrite prefix_nil in Hp.
Qed.

(** X9: a template prefix that, its trailing slash apart, has no slash
    cannot be split into directory and name: [sql] raises [ValueError]
    before it has written or changed anything. *)
Theorem sql_needs_a_directory_in_the_prefix :
  forall (args : Namespace) (w : world) (p : string),
    findAllByQuery w (fileset_id args) = [p] ->
    no_slash (normalized p) = true ->
    sql args w = (inl ValueError, w).
Proof.
  intros args w p Hq Hs. rewrite sql_run, Hq. cbv beta iota zeta.
  unfold no_slash in Hs. apply negb_true_iff in Hs.
  now rewrite (rsplit_slash_none _ Hs).
Qed.

Lemma sql_needs_a_directory_witness :
  let w := mkWorld example_disk [] [(1%Z, "xyz/")] [("cafe-d00d", true)] [] [] in
  findAllByQuery w (fileset_id sql_img_args) = ["xyz/"]
  /\ no_slash (normalized "xyz/") = true
  /\ sql sql_img_args w = (inl ValueError, w).
Proof.
  cbv zeta. split; [reflexivity|]. split; [reflexivity|].
  apply (sql_needs_a_directory_in_the_prefix sql_img_args _ "xyz/"); reflexivity.
Defined.

(* ===================================================================== *)
(** ** The commands and the disk *)
(* ===================================================================== *)

Lemma create_symlink_sub_disk (repo prefix : string) (sp : Path) (target : string)
    (w : world) :
  sub_disk (disk w) (disk (snd (create_symlink repo prefix sp target w))).
Proof.
  rewrite create_symlink_run. cbv zeta.
  destruct (negb (exists_ (disk w) (cwd w) (os_path_join repo prefix)));
    [apply sub_disk_refl|].
  assert (S1 : sub_disk (disk w)
                 (fst (makedirs (disk w) (cwd w)
                         (os_path_join repo prefix ++ "_" ++ SUFFIX)))).
  { unfold makedirs. destruct (String.eqb _ ""); [apply sub_disk_refl|].
    apply makedirs_c_sub_disk. }
  destruct (makedirs (disk w) (cwd w) _) as [d1 [e|]]; [exact S1|].
  simpl in S1.
  assert (S2 : sub_disk d1
                 (fst (OS.symlink d1 (cwd w) target
                         (os_path_join (os_path_join repo prefix ++ "_" ++ SUFFIX)
                            (name sp))))).
  { unfold OS.symlink.
    destruct (getname target); [apply sub_disk_refl|].
    destruct (getname _); [apply sub_disk_refl|].
    apply create_c_sub_disk. }
  destruct (has_nul target || has_nul _); [exact S1|].
  destruct (OS.symlink d1 (cwd w) target _) as [d2 [e|]];
    exact (sub_disk_trans _ _ _ S1 S2).
Qed.

(** What follows the symlink in [sql] leaves the disk alone. *)
Lemma sql_after_symlink_disk (args : Namespace) (pp pn : string) (r2 : exn + unit)
    (w2 : world) :
  disk (snd (match r2 with
             | inl e => (inl e, w2)
             | inr _ =>
                 match scandir (disk w2) (cwd w2) (str (of_string (symlink_target args))) with
                 | inl e => (inl (OSError e), w2)
                 | inr listing =>
                     match sql_rows pp pn (of_string (symlink_target args))
                             (walk (of_string (symlink_target args)) listing) with
                     | (None, _) => (inl TypeError, w2)
                     | (Some (fpath, fname), rows) =>
                         let w3 := log_out w2 (UPDATE_format fname fpath (fileset_id args)) in
                         match find (fun pair => snd pair) (repositories w2) with
                         | None =>
                             (inl (Die 402 ("Failed to find managed repository (count="
                                              ++ of_int (Z.of_nat (List.length (repositories w2)))
                                              ++ ")")),
                                      log_err w3 ("Failed to find managed repository (count="
                                              ++ of_int (Z.of_nat (List.length (repositories w2)))
                                              ++ ")"))
                         | Some (desc, _) =>
                             (inr tt,
                              log_out w3
                                (TEMPLATE_format (of_int (fileset_id args)) (secret args) desc
                                   (pp ++ "/" ++ pn ++ "_" ++ SUFFIX ++ "/")
                                   (join ("," ++ LF) rows)))
                         end
                     end
                 end
             end)) = disk w2.
Proof.
  destruct r2 as [e|u]; [reflexivity|].
  destruct (scandir _ _ _) as [e|listing]; [reflexivity|].
  destruct (sql_rows _ _ _ _) as [[[fpath fname]|] rows]; [|reflexivity].
  destruct (find _ _) as [[desc m]|]; reflexivity.
Qed.

(** The disk that [sql] leaves, in terms of the symlink step. *)
Lemma sql_disk (args : Namespace) (w : world) :
  disk (snd (sql args w)) =
  match findAllByQuery w (fileset_id args) with
  | [p] =>
      match rsplit_slash (normalized p) with
      | None => disk w
      | Some (pp, pn) =>
          if negb (exists_ (disk w) (cwd w) (str (of_string (symlink_target args))))
          then disk w
          else
            match truthy (symlink_repo args) with
            | Some repo =>
                disk (snd (create_symlink repo (normalized p)
                             (of_string (symlink_target args)) (symlink_target args)
                             (log_err w ("Found prefix " ++ pp ++ " // " ++ pn
                                           ++ " for fileset " ++ of_int (fileset_id args)))))
            | None => disk w
            end
      end
  | _ => disk w
  end.
Proof.
  rewrite sql_run.
  destruct (findAllByQuery w (fileset_id args)) as [|p [|p' rv]]; try reflexivity.
  cbv beta iota zeta.
  destruct (rsplit_slash (normalized p)) as [[pp pn]|]; [|reflexivity].
  destruct (negb (exists_ (disk w) (cwd w) (str (of_string (symlink_target args)))));
    [reflexivity|].
  destruct (truthy (symlink_repo args)) as [repo|].
  - destruct (create_symlink repo (normalized p) (of_string (symlink_target args))
                (symlink_target args) _) as [r2 w2].
    cbv beta iota. exact (sql_after_symlink_disk args pp pn r2 w2).
  - cbv beta iota.
    match goal with
    | |- context [log_err w ?s] => change (disk w) with (disk (log_err w s))
    end.
    exact (sql_after_symlink_disk args pp pn (inr tt) _).
Qed.

(** X10: without a symlink repository ([--symlink_repo] absent or empty)
    [sql] only reads the disk: however the run ends, the disk is as it was. *)
Theorem sql_without_symlink_repo_keeps_the_disk :
  forall (args : Namespace) (w : world),
    truthy (symlink_repo args) = None ->
    disk (snd (sql args w)) = disk w.
Proof.
  intros args w H. rewrite sql_disk, H.
  destruct (findAllByQuery w (fileset_id args)) as [|p [|p' rv]]; try reflexivity.
  destruct (rsplit_slash (normalized p)) as [[pp pn]|]; [|reflexivity].
  destruct (negb _); reflexivity.
Qed.

Lemma sql_without_symlink_repo_witness :
  truthy (symlink_repo (mkArgs "TBD" None (Some "") 1 "/data/img.zarr")) = None
  /\ disk (snd (sql (mkArgs "TBD" None (Some "") 1 "/data/img.zarr") example_world))
     = disk example_world.
Proof.
  split; [reflexivity|].
  apply (sql_without_symlink_repo_keeps_the_disk
           (mkArgs "TBD" None (Some "") 1 "/data/img.zarr") example_world).
  reflexivity.
Defined.

(** X11: neither command ever removes or replaces something on disk:
    whatever path named a file, a directory or a link before the run names
    the same kind of object, for a link with the same text, after it,
    whether the run succeeds or fails. *)
Theorem commands_only_add_to_the_disk :
  forall (args : Namespace) (w : world),
    sub_disk (disk w) (disk (snd (sql args w)))
    /\ sub_disk (disk w) (disk (snd (symlink args w))).
Proof.
  intros args w. split.
  - rewrite sql_disk.
    destruct (findAllByQuery w (fileset_id args)) as [|p [|p' rv]];
      try apply sub_disk_refl.
    destruct (rsplit_slash (normalized p)) as [[pp pn]|]; [|apply sub_disk_refl].
    destruct (negb _); [apply sub_disk_refl|].
    destruct (truthy (symlink_repo args)) as [repo|]; [|apply sub_disk_refl].
    apply (create_symlink_sub_disk repo (normalized p) _ _ (log_err w _)).
  - rewrite symlink_run.
    destruct (findAllByQuery w (fileset_id args)) as [|p [|p' rv]];
      try apply sub_disk_refl.
    destruct (symlink_repo args) as [repo|]; [|apply sub_disk_refl].
    apply create_symlink_sub_disk.
Qed.

(** The outcome and the disk of [create_symlink] do not depend on what has
    been written to the streams. *)
Lemma create_symlink_log_err (repo prefix : string) (sp : Path) (target : string)
    (w : world) (s : string) :
  fst (create_symlink repo prefix sp target (log_err w s))
    = fst (create_symlink repo prefix sp target w)
  /\ disk (snd (create_symlink repo prefix sp target (log_err w s)))
     = disk (snd (create_symlink repo prefix sp target w)).
Proof.
  rewrite !create_symlink_run. cbv zeta.
  change (disk (log_err w s)) with (disk w). change (cwd (log_err w s)) with (cwd w).
  destruct (negb (exists_ (disk w) (cwd w) (os_path_join repo prefix)));
    [now split|].
  destruct (makedirs (disk w) (cwd w) _) as [d1 [e|]]; [now split|].
  destruct (has_nul target || has_nul _); [now split|].
  destruct (OS.symlink d1 (cwd w) target _) as [d2 [e|]]; now split.
Qed.

(** X12: [sql] with a symlink repository does to the disk what the
    [symlink] command does with the same arguments, once [sql] has got past
    its own checks (a template prefix with a directory part, a target that
    exists): generating the script first and linking later gives the same
    disk as doing both in one run. *)
Theorem sql_links_like_the_symlink_command :
  forall (args : Namespace) (w : world) (p pp pn repo : string),
    symlink_repo args = Some repo ->
    repo <> "" ->
    findAllByQuery w (fileset_id args) = [p] ->
    rsplit_slash (normalized p) = Some (pp, pn) ->
    exists_ (disk w) (cwd w) (str (of_string (symlink_target args))) = true ->
    disk (snd (sql args w)) = disk (snd (symlink args w)).
Proof.
  intros args w p pp pn repo Hrepo Hne Hq Hs Hex.
  rewrite sql_disk, symlink_run, Hq, Hs, Hex, Hrepo. cbn [negb].
  unfold truthy. destruct (String.eqb_spec repo ""); [contradiction|].
  apply create_symlink_log_err.
Qed.

Lemma sql_links_like_the_symlink_command_witness :
  symlink_repo sql_root_symlink_args = Some "/repo"
  /\ "/repo" <> ""
  /\ findAllByQuery example_world (fileset_id sql_root_symlink_args) = ["user_2/xyz/"]
  /\ rsplit_slash (normalized "user_2/xyz/") = Some ("user_2", "xyz")
  /\ exists_ (disk example_world) (cwd example_world)
       (str (of_string (symlink_target sql_root_symlink_args))) = true
  /\ disk (snd (sql sql_root_symlink_args example_world))
     = disk (snd (symlink sql_root_symlink_args example_world)).
Proof.
  split; [reflexivity|]. split; [discriminate|]. split; [reflexivity|].
  split; [reflexivity|]. split; [vm_compute; reflexivity|].
  apply (sql_links_like_the_symlink_command sql_root_symlink_args example_world
           "user_2/xyz/" "user_2" "xyz" "/repo");
    [reflexivity | discriminate | reflexivity | reflexivity | vm_compute; reflexivity].
Defined.

(** A failing run of the image on the server without managed repository. *)
Lemma sql_failure_output_witness :
  let r := sql sql_img_args unmanaged_world in
  r = (inl (Die 402 "Failed to find managed repository (count=1)"), snd r)
  /\ (out (snd r) = out unmanaged_world
      \/ exists fname fpath,
           out (snd r)
             = (out unmanaged_world
                  ++ [UPDATE_format fname fpath (fileset_id sql_img_args)])%list
           /\ find (fun pair => snd pair) (repositories unmanaged_world) = None
           /\ exists msg, Die 402 "Failed to find managed repository (count=1)"
                          = Die 402 msg).
Proof.
  cbv zeta. split; [vm_compute; reflexivity|].
  apply (sql_failure_output sql_img_args unmanaged_world).
  vm_compute; reflexivity.
Defined.


(* ===================================================================== *)
(** ** Where the link is put *)
(* ===================================================================== *)

Lemma split_slash_nonempty (s : string) : split_slash s <> [].
Proof.
  destruct s as [|c s]; simpl; [discriminate|].
  destruct (Ascii.eqb c "/"); [discriminate|].
  destruct (split_slash s); discriminate.
Qed.

Lemma split_slash_app (a b : string) :
  split_slash (a ++ "/" ++ b) = (split_slash a ++ split_slash b)%list.
Proof.
  induction a as [|c a IH]; [reflexivity|].
  change (String c a ++ "/" ++ b) with (String c (a ++ "/" ++ b)).
  unfold split_slash; fold split_slash. rewrite IH.
  destruct (Ascii.eqb c "/"); [reflexivity|].
  pose proof (split_slash_nonempty a) as Hn.
  destruct (split_slash a); [contradiction | reflexivity].
Qed.

Lemma split_slash_no_slash (n : string) :
  contains "/" n = false -> split_slash n = [n].
Proof.
  induction n as [|c n IH]; [reflexivity|].
  unfold contains; fold contains. intros H. apply orb_false_iff in H.
  destruct H as [Hp Hc]. simpl. rewrite (IH Hc).
  destruct (Ascii.eqb_spec c "/") as [->|]; [|reflexivity].
  simpl in Hp. destruct (ascii_dec "/" "/") as [_|Hn]; [|now elim Hn].
  now rewrite prefix_nil in Hp.
Qed.

(** The name of the mirror directory is not empty and has no trailing
    slash. *)
Lemma mirror_dir_shape (x : string) :
  String.eqb (x ++ "_" ++ SUFFIX) "" = false
  /\ endswith_slash (x ++ "_" ++ SUFFIX) = false.
Proof.
  induction x as [|c x [IH1 IH2]]; [now split|].
  split; [reflexivity|].
  change (String c x ++ "_" ++ SUFFIX) with (String c (x ++ "_" ++ SUFFIX)).
  destruct (x ++ "_" ++ SUFFIX) as [|c' r] eqn:E; [discriminate|].
  exact IH2.
Qed.

Lemma is_abs_append (a b : string) : a <> "" -> is_abs (a ++ b) = is_abs a.
Proof.
  destruct a as [|c a]; [contradiction|]. intros _.
  unfold is_abs, startswith. cbn [append String.prefix].
  destruct (ascii_dec "/" c); [now rewrite !prefix_nil | reflexivity].
Qed.

(** The path of the link, taken apart. *)
Lemma link_source_comps (dir n : string) :
  String.eqb dir "" = false -> endswith_slash dir = false ->
  plain n = true -> no_slash n = true ->
  comps (os_path_join dir n) = (comps dir ++ [n])%list
  /\ is_abs (os_path_join dir n) = is_abs dir
  /\ String.eqb (os_path_join dir n) "" = false.
Proof.
  intros Hd He Hp Hs. unfold no_slash in Hs. apply negb_true_iff in Hs.
  assert (Hst : startswith n "/" = false).
  { destruct n as [|c n]; [reflexivity|].
    unfold contains in Hs; fold contains in Hs. now apply orb_false_iff in Hs. }
  unfold os_path_join. rewrite Hst, Hd, He. simpl orb. cbv iota.
  assert (Hne : dir <> "") by (intros ->; discriminate).
  split; [|split].
  - unfold comps. rewrite split_slash_app, filter_app, (split_slash_no_slash _ Hs).
    simpl filter. unfold plain in Hp. apply andb_true_iff in Hp. now rewrite (proj1 Hp).
  - now apply is_abs_append.
  - destruct dir; [contradiction | reflexivity].
Qed.

(** X13: after a successful [create_symlink] for a container whose name is
    an ordinary component, the mirror directory [<repo>/<prefix>_mkngff]
    leads to a directory, and the entry of that directory with the
    container's name is a symbolic link whose text is the target exactly as
    it was given. *)
Theorem create_symlink_puts_the_link_in_the_mirror_directory :
  forall (repo prefix : string) (sp : Path) (target : string) (w w' : world),
    create_symlink repo prefix sp target w = (inr tt, w') ->
    plain (name sp) = true -> no_slash (name sp) = true ->
    exists q,
      resolve MAXSYMLINKS (disk w') true
        (start (cwd w') (mirror_dir repo prefix)) (comps (mirror_dir repo prefix)) = inr q
      /\ lstat (disk w') q = Some KDir
      /\ lookup (disk w') (q ++ [name sp]) = Some (ILink target).
Proof.
  intros repo prefix sp target w w' H Hp Hs. rewrite create_symlink_run in H.
  cbv zeta in H. fold (mirror_dir repo prefix) in H.
  destruct (mirror_dir_shape (os_path_join repo prefix)) as [Hd He].
  fold (mirror_dir repo prefix) in Hd, He.
  destruct (link_source_comps _ _ Hd He Hp Hs) as (Hc & Ha & Hn).
  destruct (negb (exists_ (disk w) (cwd w) (os_path_join repo prefix))); [discriminate|].
  destruct (makedirs (disk w) (cwd w) (mirror_dir repo prefix)) as [d1 [e|]];
    [discriminate|].
  destruct (has_nul target
            || has_nul (os_path_join (mirror_dir repo prefix) (name sp)));
    [discriminate|].
  destruct (OS.symlink d1 (cwd w) target (os_path_join (mirror_dir repo prefix) (name sp)))
    as [d2 [e|]] eqn:Hln; [discriminate|].
  injection H as <-. cbn [disk cwd].
  unfold OS.symlink in Hln.
  destruct (getname target); [discriminate|].
  destruct (getname (os_path_join (mirror_dir repo prefix) (name sp)));
    [discriminate|].
  rewrite Hc in Hln.
  unfold start in Hln |- *. rewrite Ha in Hln.
  destruct (create_c_inv _ _ _ _ _ Hln) as (head & c & q & E & _ & _ & R & Lq & Lc & ->).
  apply app_inj_tail in E. destruct E as [<- <-].
  pose proof (insert_sub_disk d1 q (name sp) (ILink target)) as S.
  exists q. split; [|split].
  - exact (resolve_sub_disk _ _ true S _ _ _ _ R).
  - exact (S _ _ Lq).
  - now apply lookup_insert_new.
Qed.

Lemma create_symlink_puts_the_link_witness :
  let w' := snd (create_symlink "/repo" "user_2/xyz" scenario_root "/data/root"
                   example_world) in
  create_symlink "/repo" "user_2/xyz" scenario_root "/data/root" example_world
    = (inr tt, w')
  /\ plain (name scenario_root) = true
  /\ no_slash (name scenario_root) = true
  /\ exists q,
       resolve MAXSYMLINKS (disk w') true
         (start (cwd w') (mirror_dir "/repo" "user_2/xyz"))
         (comps (mirror_dir "/repo" "user_2/xyz")) = inr q
       /\ lstat (disk w') q = Some KDir
       /\ lookup (disk w') (q ++ [name scenario_root]) = Some (ILink "/data/root").
Proof.
  cbv zeta. split; [vm_compute; reflexivity|].
  split; [reflexivity|]. split; [reflexivity|].
  apply (create_symlink_puts_the_link_in_the_mirror_directory
           "/repo" "user_2/xyz" scenario_root "/data/root" example_world);
    [vm_compute; reflexivity | reflexivity | reflexivity].
Defined.

(* ===================================================================== *)
(** ** Running [sql] again *)
(* ===================================================================== *)

Lemma exists_sub_disk (d d' : inode) (c : list string) (s : string) :
  sub_disk d d' -> exists_ d c s = true -> exists_ d' c s = true.
Proof.
  intros S. unfold exists_. destruct (getname s); [discriminate|].
  now apply (exists_c_sub_disk d d').
Qed.

(** X14: a run of [sql] that created the symlink and went through cannot
    be repeated: the same command in the world that it left raises
    [FileExistsError] from [os.symlink], before anything is written to the
    output and without a change to the disk. *)
Theorem sql_with_symlink_cannot_be_repeated :
  forall (args : Namespace) (w w' : world) (repo : string),
    truthy (symlink_repo args) = Some repo ->
    sql args w = (inr tt, w') ->
    fst (sql args w') = inl (OSError EEXIST)
    /\ out (snd (sql args w')) = out w'
    /\ disk (snd (sql args w')) = disk w'.
Proof.
  intros args w w' repo Hrepo H. rewrite sql_run in H. rewrite Hrepo in H.
  destruct (findAllByQuery w (fileset_id args)) as [|p [|p' rv]] eqn:Hq;
    try discriminate.
  cbv beta iota zeta in H.
  destruct (rsplit_slash (normalized p)) as [[pp pn]|] eqn:Hs; [|discriminate].
  set (sp := of_string (symlink_target args)) in *.
  set (w1 := log_err w _) in H.
  destruct (exists_ (disk w) (cwd w) (str sp)) eqn:Hex; cbn [negb] in H; [|discriminate].
  destruct (create_symlink repo (normalized p) sp (symlink_target args) w1)
    as [[e|[]] w2] eqn:Hcs; [discriminate|].
  destruct (create_symlink_frame _ _ _ _ _ _ _ Hcs) as (Ho & Hc & Hr & Hf).
  pose proof (create_symlink_sub_disk repo (normalized p) sp (symlink_target args) w1) as S.
  rewrite Hcs in S. cbn [snd] in S. change (disk w1) with (disk w) in S.
  destruct (scandir (disk w2) (cwd w2) (str sp)) as [e|listing]; [discriminate|].
  destruct (sql_rows pp pn sp (walk sp listing)) as [[[fpath fname]|] rows];
    [|discriminate].
  destruct (find (fun pair => snd pair) (repositories w2)) as [[desc m]|];
    [|discriminate].
  injection H as <-.
  set (w' := log_out (log_out w2 _) _).
  assert (Hd' : disk w' = disk w2) by reflexivity.
  assert (Hc' : cwd w' = cwd w) by (exact Hc).
  assert (Hf' : filesets w' = filesets w) by (exact Hf).
  rewrite sql_run.
  assert (Hq' : findAllByQuery w' (fileset_id args) = [p]).
  { unfold findAllByQuery in *. now rewrite Hf'. }
  rewrite Hq', Hrepo. cbv beta iota zeta. rewrite Hs. fold sp.
  rewrite Hd', Hc', (exists_sub_disk _ _ _ _ S Hex). cbn [negb].
  set (w1' := log_err w' _).
  destruct (create_symlink_again _ _ _ _ _ _ Hcs) as [Htgt Hagain].
  destruct (Hagain w1' sp (symlink_target args) eq_refl eq_refl eq_refl)
    as [Hfst Hdisk].
  rewrite Htgt in Hfst.
  destruct (create_symlink repo (normalized p) sp (symlink_target args) w1')
    as [r3 w3] eqn:Hcs'.
  cbn [fst snd] in Hfst, Hdisk. subst r3.
  destruct (create_symlink_frame _ _ _ _ _ _ _ Hcs') as (Ho3 & _).
  cbn [fst snd]. split; [reflexivity|]. split; [exact Ho3 | exact Hdisk].
Qed.

Lemma sql_with_symlink_cannot_be_repeated_witness :
  let args := mkArgs "TBD" None (Some "/repo") 1 "/data/img.zarr" in
  let w' := snd (sql args example_world) in
  truthy (symlink_repo args) = Some "/repo"
  /\ sql args example_world = (inr tt, w')
  /\ fst (sql args w') = inl (OSError EEXIST)
  /\ out (snd (sql args w')) = out w'
  /\ disk (snd (sql args w')) = disk w'.
Proof.
  cbv zeta. split; [reflexivity|]. split; [vm_compute; reflexivity|].
  apply (sql_with_symlink_cannot_be_repeated
           (mkArgs "TBD" None (Some "/repo") 1 "/data/img.zarr") example_world _ "/repo");
    [reflexivity | vm_compute; reflexivity].
Defined.
